(** * Guest-Pass-GC: the visit lifecycle of [server.js]

    A shallow embedding of the request handlers of [src/server.js]
    (code generation, visit creation, update, gate validation, check-in and
    check-out) over an explicit relational store, and the properties of the
    visit lifecycle proved about them. *)

From Stdlib Require Import ZArith NArith Ascii String List Lia Bool.
From stdpp Require Import base option list strings gmap.

Set Warnings "-register-all".

Local Open Scope Z_scope.

(** ** JavaScript values and the string primitives the handlers use *)

Module JS.

(** What [express.json()] can put in [req.body]; [JUndefined] is what reading
    an absent property gives.  [JNum n] is the number of integer value [n]:
    the handlers only ask whether a value is a number, and otherwise hand
    it to the driver as a statement parameter. *)
Inductive JsValue : Type :=
  | JUndefined
  | JNull
  | JBool (b : bool)
  | JNum (n : Z)
  | JStr (s : string)
  | JArr (l : list JsValue)
  | JObj (m : gmap string JsValue).

(** Exceptions a handler can see: a [TypeError] raised by the language (the
    payload names the property being read or called), an [Error] thrown by
    the handler itself, and an error raised by [db.query]. *)
Inductive Exn : Type :=
  | TypeError (property : string)
  | Error (message : string)
  | DbError (statement : string).

(** [typeof v === 'number'] *)
Definition typeof_number (v : JsValue) : bool :=
  match v with JNum _ => true | _ => false end.

(** [v !== undefined] *)
Definition defined (v : JsValue) : bool :=
  match v with JUndefined => false | _ => true end.

(** [o.k] on the body object: an absent key reads as [undefined]. *)
Definition field (o : gmap string JsValue) (k : string) : JsValue :=
  default JUndefined (o !! k).

(** [v.k] for a data property [k] that no primitive wrapper or array
    defines ([phone], [name], [email], [company]): reading it from
    [undefined] or [null] throws, from an object it looks the key up, from
    anything else it gives [undefined]. *)
Definition get_prop (v : JsValue) (k : string) : Exn + JsValue :=
  match v with
  | JUndefined | JNull => inl (TypeError k)
  | JObj m => inr (field m k)
  | _ => inr JUndefined
  end.

(** [String.prototype.includes] for a one-character needle. *)
Fixpoint string_includes (s : string) (c : ascii) : bool :=
  match s with
  | EmptyString => false
  | String a s' => if Ascii.eqb a c then true else string_includes s' c
  end.

Definition is_str (needle : string) (v : JsValue) : bool :=
  match v with JStr s => String.eqb s needle | _ => false end.

(** [v.includes('-')]: the string method on a string, the array method
    (element equality) on an array; on every other value the call throws,
    because [includes] is not a function there. *)
Definition includes_hyphen (v : JsValue) : Exn + bool :=
  match v with
  | JStr s => inr (string_includes s "-"%char)
  | JArr l => inr (existsb (is_str "-") l)
  | _ => inl (TypeError "includes")
  end.

(** *** Decimal rendering: [String(n)] and template interpolation *)

Definition digit_char (d : N) : ascii := ascii_of_N (48 + d).

Fixpoint digits (fuel : nat) (n : N) : string :=
  match fuel with
  | O => EmptyString
  | S fuel' =>
      if (n <? 10)%N then String (digit_char n) EmptyString
      else digits fuel' (n / 10)%N +:+ String (digit_char (n mod 10)%N) EmptyString
  end.

(** [String(n)] for a non-negative integer. *)
Definition String_of_N (n : N) : string := digits (S (N.to_nat (N.log2 n))) n.

(** [`${y}`] for an integer. *)
Definition String_of_Z (y : Z) : string :=
  if y <? 0 then "-" +:+ String_of_N (Z.abs_N y) else String_of_N (Z.to_N y).

(** A JS number that is either a non-negative integer or [NaN]. *)
Definition String_of_number (n : option N) : string :=
  match n with Some k => String_of_N k | None => "NaN" end.

Fixpoint repeat_char (c : ascii) (k : nat) : string :=
  match k with O => EmptyString | S k' => String c (repeat_char c k') end.

(** [s.padStart(width, '0')] *)
Definition padStart (s : string) (width : nat) (c : ascii) : string :=
  repeat_char c (width - String.length s) +:+ s.

(** *** [parseInt] and the pattern [/(\d{6})$/] *)

Definition is_digit (c : ascii) : bool :=
  let n := N_of_ascii c in ((48 <=? n) && (n <=? 57))%N.

Definition digit_value (c : ascii) : N := (N_of_ascii c - 48)%N.

Fixpoint all_digits (s : string) : bool :=
  match s with
  | EmptyString => true
  | String c s' => is_digit c && all_digits s'
  end.

(** Value of the longest prefix of decimal digits, [acc] being the value
    read so far. *)
Fixpoint parse_digits (acc : N) (s : string) : N :=
  match s with
  | EmptyString => acc
  | String c s' =>
      if is_digit c then parse_digits (10 * acc + digit_value c)%N s' else acc
  end.

(** [parseInt(s)] on a string with no sign or leading blank: the leading
    digits, [NaN] ([None]) when there is none. *)
Definition parseInt (s : string) : option N :=
  match s with
  | EmptyString => None
  | String c _ => if is_digit c then Some (parse_digits 0 s) else None
  end.

(** [s.match(/(\d{6})$/)]: the capture group, when the last six characters
    are digits. *)
Definition match_last6 (s : string) : option string :=
  let n := String.length s in
  if (n <? 6)%nat then None
  else
    let tail := String.substring (n - 6) 6 s in
    if all_digits tail then Some tail else None.

End JS.

Export JS.

(** ** The relational store

    The tables [visitors], [executives], [users] and [visits], with the
    columns the statements of [server.js] name.  A column that takes a
    statement parameter holds an [SqlVal]: [NULL] or a text. *)

Definition SqlVal : Type := option string.

Module Visitor.
Record t : Type := mk {
  id : string;
  full_name : SqlVal;
  email : SqlVal;
  phone : SqlVal;
  company : SqlVal;
  updated_at : Z
}.
End Visitor.

Module Executive.
Record t : Type := mk {
  id : string;
  user_id : SqlVal;
  position : SqlVal;
  is_active : bool
}.
End Executive.

Module User.
Record t : Type := mk {
  id : string;
  full_name : SqlVal;
  email : SqlVal;
  department : SqlVal;
  is_active : bool
}.
End User.

Module Visit.
Record t : Type := mk {
  id : string;
  visit_code : string;
  visitor_id : string;
  executive_id : SqlVal;
  scheduled_date : option Z;        (* a DATE: day number, or NULL *)
  scheduled_time_from : SqlVal;
  scheduled_time_to : SqlVal;
  purpose_of_visit : SqlVal;
  visit_type : SqlVal;
  visit_status : SqlVal;
  approval_status : SqlVal;
  approved_at : SqlVal;
  rejection_reason : SqlVal;
  actual_checkin_time : option Z;
  actual_checkout_time : option Z;
  created_at : Z;
  updated_at : Z
}.

Definition set_visit_status (x : SqlVal) (v : t) : t :=
  mk (id v) (visit_code v) (visitor_id v) (executive_id v) (scheduled_date v)
     (scheduled_time_from v) (scheduled_time_to v) (purpose_of_visit v)
     (visit_type v) x (approval_status v) (approved_at v)
     (rejection_reason v) (actual_checkin_time v) (actual_checkout_time v)
     (created_at v) (updated_at v).

Definition set_approval_status (x : SqlVal) (v : t) : t :=
  mk (id v) (visit_code v) (visitor_id v) (executive_id v) (scheduled_date v)
     (scheduled_time_from v) (scheduled_time_to v) (purpose_of_visit v)
     (visit_type v) (visit_status v) x (approved_at v)
     (rejection_reason v) (actual_checkin_time v) (actual_checkout_time v)
     (created_at v) (updated_at v).

Definition set_approved_at (x : SqlVal) (v : t) : t :=
  mk (id v) (visit_code v) (visitor_id v) (executive_id v) (scheduled_date v)
     (scheduled_time_from v) (scheduled_time_to v) (purpose_of_visit v)
     (visit_type v) (visit_status v) (approval_status v) x
     (rejection_reason v) (actual_checkin_time v) (actual_checkout_time v)
     (created_at v) (updated_at v).

Definition set_rejection_reason (x : SqlVal) (v : t) : t :=
  mk (id v) (visit_code v) (visitor_id v) (executive_id v) (scheduled_date v)
     (scheduled_time_from v) (scheduled_time_to v) (purpose_of_visit v)
     (visit_type v) (visit_status v) (approval_status v) (approved_at v)
     x (actual_checkin_time v) (actual_checkout_time v)
     (created_at v) (updated_at v).

Definition set_actual_checkin_time (x : option Z) (v : t) : t :=
  mk (id v) (visit_code v) (visitor_id v) (executive_id v) (scheduled_date v)
     (scheduled_time_from v) (scheduled_time_to v) (purpose_of_visit v)
     (visit_type v) (visit_status v) (approval_status v) (approved_at v)
     (rejection_reason v) x (actual_checkout_time v)
     (created_at v) (updated_at v).

Definition set_actual_checkout_time (x : option Z) (v : t) : t :=
  mk (id v) (visit_code v) (visitor_id v) (executive_id v) (scheduled_date v)
     (scheduled_time_from v) (scheduled_time_to v) (purpose_of_visit v)
     (visit_type v) (visit_status v) (approval_status v) (approved_at v)
     (rejection_reason v) (actual_checkin_time v) x
     (created_at v) (updated_at v).

Definition set_updated_at (x : Z) (v : t) : t :=
  mk (id v) (visit_code v) (visitor_id v) (executive_id v) (scheduled_date v)
     (scheduled_time_from v) (scheduled_time_to v) (purpose_of_visit v)
     (visit_type v) (visit_status v) (approval_status v) (approved_at v)
     (rejection_reason v) (actual_checkin_time v) (actual_checkout_time v)
     (created_at v) x.
End Visit.

Record Tables : Type := mkTables {
  visitors : list Visitor.t;
  executives : list Executive.t;
  users : list User.t;
  visits : list Visit.t
}.

(** Modelled from the spec: the session behind [db.query] (the module
    [./config/database] is not part of the sources).  The store is
    transactional: the session holds the current contents of the tables and,
    while a transaction is open, the contents saved at its [BEGIN]. *)
Record DB : Type := mkDB {
  tables : Tables;
  saved : option Tables
}.

Definition set_visitors (l : list Visitor.t) (t : Tables) : Tables :=
  mkTables l (executives t) (users t) (visits t).

Definition set_visits (l : list Visit.t) (t : Tables) : Tables :=
  mkTables (visitors t) (executives t) (users t) l.

(** The columns [PUT /api/visits/:id] can put in its [SET] list. *)
Inductive VisitColumn : Type :=
  | col_approval_status
  | col_approved_at
  | col_visit_status
  | col_rejection_reason.

(** The statements [server.js] sends, named after what they do; the text of
    the [UPDATE] of line 269 depends on the columns it sets. *)
Inductive Sql : Type :=
  | SqlBegin
  | SqlCommit
  | SqlRollback
  | SqlSelectLastCode           (* line 107 *)
  | SqlSelectFirstExecutive     (* line 149 *)
  | SqlSelectVisitorByPhone     (* line 159 *)
  | SqlUpdateVisitor            (* line 169 *)
  | SqlInsertVisitor            (* line 175 *)
  | SqlInsertVisit              (* line 189 *)
  | SqlSelectCompleteVisit      (* line 202 *)
  | SqlUpdateVisit (set : list VisitColumn)   (* line 269 *)
  | SqlSelectVisitByCode        (* line 294 *)
  | SqlCheckin                  (* line 360 *)
  | SqlCheckout.                (* line 385 *)

Definition sql_name (q : Sql) : string :=
  match q with
  | SqlBegin => "BEGIN"
  | SqlCommit => "COMMIT"
  | SqlRollback => "ROLLBACK"
  | SqlSelectLastCode => "SELECT visit_code FROM visits"
  | SqlSelectFirstExecutive => "SELECT id FROM executives"
  | SqlSelectVisitorByPhone => "SELECT id FROM visitors"
  | SqlUpdateVisitor => "UPDATE visitors"
  | SqlInsertVisitor => "INSERT INTO visitors"
  | SqlInsertVisit => "INSERT INTO visits"
  | SqlSelectCompleteVisit => "SELECT v.* FROM visits v"
  | SqlUpdateVisit _ => "UPDATE visits"
  | SqlSelectVisitByCode => "SELECT v.id FROM visits v"
  | SqlCheckin => "UPDATE visits SET visit_status = 'checked_in'"
  | SqlCheckout => "UPDATE visits SET visit_status = 'checked_out'"
  end.

(** SQL equality of a column with a parameter: never true on [NULL]. *)
Definition sql_eq (a b : SqlVal) : bool :=
  match a, b with
  | Some x, Some y => String.eqb x y
  | _, _ => false
  end.

(** ** Handler computations: state and exceptions

    A handler body threads the session through its [await db.query(...)]
    calls and may throw; each handler then maps the outcome of its [try]
    block to a response, as its [catch] does. *)

Definition M (A : Type) : Type := DB -> (Exn + A) * DB.

Definition ret {A : Type} (a : A) : M A := fun db => (inr a, db).

Definition throw {A : Type} (e : Exn) : M A := fun db => (inl e, db).

Definition bind {A B : Type} (m : M A) (k : A -> M B) : M B :=
  fun db =>
    match m db with
    | (inl e, db') => (inl e, db')
    | (inr a, db') => k a db'
    end.

Definition lift {A : Type} (r : Exn + A) : M A :=
  match r with inl e => throw e | inr a => ret a end.

Declare Scope handler_scope.
Delimit Scope handler_scope with handler.
Notation "x <- m ;; k" := (bind m (fun x => k))
  (at level 100, m at next level, right associativity) : handler_scope.
Notation "m ;;; k" := (bind m (fun _ => k))
  (at level 100, right associativity) : handler_scope.

(** Rows of the joined queries. *)

Record CompleteVisit : Type := mkComplete {      (* lines 202-215 *)
  cv_visit : Visit.t;                            (* v.* *)
  cv_visitor_name : SqlVal;
  cv_visitor_email : SqlVal;
  cv_visitor_phone : SqlVal;
  cv_visitor_company : SqlVal;
  cv_executive_name : SqlVal;
  cv_executive_department : SqlVal
}.

Record GateVisit : Type := mkGate {              (* lines 294-315 *)
  gv_id : string;
  gv_code : string;
  gv_date : option Z;
  gv_time_from : SqlVal;
  gv_time_to : SqlVal;
  gv_purpose : SqlVal;
  gv_status : SqlVal;
  gv_actual_checkin : option Z;
  gv_executive_id : SqlVal;
  gv_visitor_name : SqlVal;
  gv_visitor_phone : SqlVal;
  gv_visitor_company : SqlVal;
  gv_visitor_email : SqlVal;
  gv_executive_name : SqlVal;
  gv_executive_department : SqlVal
}.

(** [FROM visits v JOIN visitors vis ON v.visitor_id = vis.id
     JOIN executives e ON v.executive_id = e.id JOIN users u ON e.user_id = u.id],
    for one row [v] of [visits]. *)
Definition join_visit (t : Tables) (v : Visit.t)
  : list (Visit.t * Visitor.t * Executive.t * User.t) :=
  flat_map (fun vis =>
    flat_map (fun e =>
      flat_map (fun u => [(v, vis, e, u)])
        (List.filter (fun u => sql_eq (Executive.user_id e) (Some (User.id u))) (users t)))
      (List.filter (fun e => sql_eq (Visit.executive_id v) (Some (Executive.id e))) (executives t)))
    (List.filter (fun vis => String.eqb (Visit.visitor_id v) (Visitor.id vis)) (visitors t)).

Definition complete_row (r : Visit.t * Visitor.t * Executive.t * User.t) : CompleteVisit :=
  let '(v, vis, _, u) := r in
  mkComplete v (Visitor.full_name vis) (Visitor.email vis) (Visitor.phone vis)
    (Visitor.company vis) (User.full_name u) (User.department u).

Definition gate_row (r : Visit.t * Visitor.t * Executive.t * User.t) : GateVisit :=
  let '(v, vis, _, u) := r in
  mkGate (Visit.id v) (Visit.visit_code v) (Visit.scheduled_date v)
    (Visit.scheduled_time_from v) (Visit.scheduled_time_to v)
    (Visit.purpose_of_visit v) (Visit.visit_status v)
    (Visit.actual_checkin_time v) (Visit.executive_id v)
    (Visitor.full_name vis) (Visitor.phone vis) (Visitor.company vis)
    (Visitor.email vis) (User.full_name u) (User.department u).

(** [... WHERE v.id = $1] *)
Definition select_complete (t : Tables) (id : string) : list CompleteVisit :=
  map complete_row
    (flat_map (join_visit t) (List.filter (fun v => String.eqb (Visit.id v) id) (visits t))).

(** [... WHERE v.visit_code = $1] *)
Definition select_by_code (t : Tables) (code : SqlVal) : list GateVisit :=
  map gate_row
    (flat_map (join_visit t)
       (List.filter (fun v => sql_eq (Some (Visit.visit_code v)) code) (visits t))).

(** [ORDER BY visit_code DESC]: insertion into a list sorted from the
    greatest string down, strings being compared character by character. *)
Fixpoint insert_desc (c : string) (l : list string) : list string :=
  match l with
  | [] => [c]
  | x :: l' => if String.leb x c then c :: l else x :: insert_desc c l'
  end.

Definition order_by_desc (l : list string) : list string :=
  fold_right insert_desc [] l.

(** [SELECT visit_code FROM visits WHERE visit_code LIKE $1
     ORDER BY visit_code DESC LIMIT 1], the parameter being [prefix%] for a
    [prefix] without wildcard characters. *)
Definition select_last_code (t : Tables) (prefix : string) : list string :=
  take 1 (order_by_desc
            (List.filter (fun c => String.prefix prefix c) (map Visit.visit_code (visits t)))).

Definition assign (f : VisitColumn * SqlVal) (v : Visit.t) : Visit.t :=
  match fst f with
  | col_approval_status => Visit.set_approval_status (snd f) v
  | col_approved_at => Visit.set_approved_at (snd f) v
  | col_visit_status => Visit.set_visit_status (snd f) v
  | col_rejection_reason => Visit.set_rejection_reason (snd f) v
  end.

(** [SET f1, ..., fn] applied to one row. *)
Definition assign_all (fields : list (VisitColumn * SqlVal)) (v : Visit.t) : Visit.t :=
  fold_left (fun acc f => assign f acc) fields v.

(** [UPDATE visits SET ... WHERE id = $n RETURNING *]: the new table and the
    rows that were updated. *)
Definition update_where_id (id : string) (change : Visit.t -> Visit.t) (t : Tables)
  : list Visit.t * Tables :=
  let hit := fun v => String.eqb (Visit.id v) id in
  (map change (List.filter hit (visits t)),
   set_visits (map (fun v => if hit v then change v else v) (visits t)) t).

(** Times are milliseconds on the server's clock, every day being
    [ms_per_day] long.  A DATE column reaches the handler as the [Date] of
    that day's midnight, and [new Date(null)] is the epoch. *)
Definition ms_per_day : Z := 86400000.

Definition Date_of_column (d : option Z) : Z :=
  match d with Some day => day * ms_per_day | None => 0 end.

(** [today.setHours(0, 0, 0, 0)] *)
Definition setHours0 (t : Z) : Z := t - t mod ms_per_day.

(** ** The handlers of [server.js] *)

(** Responses, one type per route; the comment gives the HTTP status and the
    [error] text of the JSON body. *)

Inductive CodeResponse : Type :=
  | CodeOk (code : string)                   (* 200 { code } *)
  | CodeFailed.                              (* 500 'Failed to generate visit code' *)

Inductive CreateResponse : Type :=
  | Created (visit : CompleteVisit)          (* 201 { success: true, visit } *)
  | CreateFailed (details : Exn).            (* 500 'Failed to create visit' *)

Inductive VisitResponse : Type :=
  | VisitOk (visit : Visit.t)                (* 200 { success: true, visit } *)
  | NoValidFields                            (* 400 'No valid fields to update' *)
  | VisitNotFound                            (* 404 'Visit not found' *)
  | VisitFailed (details : Exn).             (* 500 'Update failed', 'Check-in failed', 'Check-out failed' *)

(** The JSON body of [POST /api/visits/validate] with its status. *)
Record ValidateResponse : Type := mkValidate {
  vr_status : Z;
  vr_valid : option bool;
  vr_error : option string;
  vr_visit : option GateVisit
}.

Section Server.

(** What the handlers rely on but [server.js] does not define. *)

(** [db.query] throws on this statement with these parameters in this
    state of the tables (a constraint of the schema, a malformed value, a
    lost connection). *)
Variable rejects : Sql -> list SqlVal -> Tables -> bool.

(** The identity the store gives a row inserted without one. *)
Variable gen_id : Tables -> string.

(** The code the store's insert trigger gives a new visit. *)
Variable assign_code : Tables -> string.

(** The text the driver sends for a number parameter, which is the text
    [Number.prototype.toString()] gives: the decimal numeral for an integer
    of moderate size, but [1e+21] for ten to the 21st. *)
Variable prepareNumber : Z -> string.

(** The text the driver sends for an array or an object parameter. *)
Variable prepareCompound : JsValue -> string.

(** The store's cast of a parameter to a DATE column. *)
Variable to_date : SqlVal -> option Z.

(** How the driver turns a JS parameter into an SQL value. *)
Definition prepareValue (v : JsValue) : SqlVal :=
  match v with
  | JUndefined | JNull => None
  | JBool b => Some (if b then "true" else "false")
  | JNum n => Some (prepareNumber n)
  | JStr s => Some s
  | JArr _ | JObj _ => Some (prepareCompound v)
  end.

(** [await db.query(text, params)] for a statement that reads or writes
    the tables: it throws when the store rejects it, and otherwise runs. *)
Definition query {A : Type} (q : Sql) (params : list SqlVal)
    (run : Tables -> A * Tables) : M A :=
  fun db =>
    if rejects q params (tables db) then (inl (DbError (sql_name q)), db)
    else let '(a, t') := run (tables db) in (inr a, mkDB t' (saved db)).

(** Modelled from the spec: [await db.query('BEGIN')] remembers the tables
    unless a transaction is already open. *)
Definition begin : M unit :=
  fun db =>
    if rejects SqlBegin [] (tables db) then (inl (DbError (sql_name SqlBegin)), db)
    else (inr tt, mkDB (tables db)
                    (match saved db with None => Some (tables db) | s => s end)).

(** Modelled from the spec: [await db.query('COMMIT')] closes the
    transaction and keeps the tables. *)
Definition commit : M unit :=
  fun db =>
    if rejects SqlCommit [] (tables db) then (inl (DbError (sql_name SqlCommit)), db)
    else (inr tt, mkDB (tables db) None).

(** Modelled from the spec: [await db.query('ROLLBACK')], taken to succeed,
    goes back to the tables of the open transaction's [BEGIN]; there is
    nothing to undo when none is open. *)
Definition rollback (db : DB) : DB :=
  mkDB (default (tables db) (saved db)) None.

Local Open Scope handler_scope.

(** *** [GET /api/visits/generate-code] (lines 102-135); [year] is
    [new Date().getFullYear()]. *)

Definition code_prefix (year : Z) : string := "GC-" +:+ String_of_Z year +:+ "-".

Definition nextNumber (rows : list string) : option N :=
  match rows with
  | lastCode :: _ =>
      match match_last6 lastCode with
      | Some m1 => option_map (fun k => (k + 1)%N) (parseInt m1)
      | None => Some 1%N
      end
  | [] => Some 1%N
  end.

Definition format_code (year : Z) (n : option N) : string :=
  code_prefix year +:+ padStart (String_of_number n) 6 "0".

Definition generateCode (year : Z) (db : DB) : CodeResponse * DB :=
  match query SqlSelectLastCode [Some (code_prefix year +:+ "%")]
          (fun t => (select_last_code t (code_prefix year), t)) db with
  | (inr rows, db') => (CodeOk (format_code year (nextNumber rows)), db')
  | (inl _, db') => (CodeFailed, db')
  end.

(** *** [POST /api/visits] (lines 138-228) *)

(** Lines 147-156. *)
Definition normalize_executive (executive_id : JsValue) : M JsValue :=
  legacy <- (if typeof_number executive_id then ret true
             else b <- lift (includes_hyphen executive_id) ;; ret (negb b)) ;;
  if (legacy : bool) then
    execResult <- query SqlSelectFirstExecutive []
                    (fun t => (map Executive.id (take 1 (executives t)), t)) ;;
    match execResult with
    | id :: _ => ret (JStr id)
    | [] => throw (Error "No executives found in database. Please add executives first.")
    end
  else ret executive_id.

Definition touch_visitor (id : string) (name email company : SqlVal) (now : Z)
    (r : Visitor.t) : Visitor.t :=
  if String.eqb (Visitor.id r) id
  then Visitor.mk (Visitor.id r) name email (Visitor.phone r) company now
  else r.

(** Lines 158-181. *)
Definition resolve_visitor (visitor : JsValue) (now : Z) : M string :=
  phone <- lift (get_prop visitor "phone") ;;
  visitorResult <- query SqlSelectVisitorByPhone [prepareValue phone]
    (fun t => (map Visitor.id
                 (List.filter (fun r => sql_eq (Visitor.phone r) (prepareValue phone))
                    (visitors t)), t)) ;;
  match visitorResult with
  | visitorId :: _ =>
      name <- lift (get_prop visitor "name") ;;
      email <- lift (get_prop visitor "email") ;;
      company <- lift (get_prop visitor "company") ;;
      query SqlUpdateVisitor
        [prepareValue name; prepareValue email; prepareValue company; Some visitorId]
        (fun t => (tt, set_visitors
                         (map (touch_visitor visitorId (prepareValue name)
                                 (prepareValue email) (prepareValue company) now)
                            (visitors t)) t)) ;;;
      ret visitorId
  | [] =>
      name <- lift (get_prop visitor "name") ;;
      email <- lift (get_prop visitor "email") ;;
      phone' <- lift (get_prop visitor "phone") ;;
      company <- lift (get_prop visitor "company") ;;
      newVisitor <- query SqlInsertVisitor
        [prepareValue name; prepareValue email; prepareValue phone'; prepareValue company]
        (fun t =>
           let row := Visitor.mk (gen_id t) (prepareValue name) (prepareValue email)
                        (prepareValue phone') (prepareValue company) now in
           ([Visitor.id row], set_visitors (visitors t ++ [row]) t)) ;;
      match newVisitor with
      | id :: _ => ret id
      | [] => throw (TypeError "id")
      end
  end.

(** Lines 183-194: the row the [INSERT INTO visits] makes.  The columns the
    statement does not name take the store's defaults: the id, the code of
    the trigger, [NULL], and the time of the insert for both timestamps. *)
Definition new_visit (t : Tables) (visitorId : string)
    (executive_id date time_from time_to purpose visit_type approvalStatus : SqlVal)
    (now : Z) : Visit.t :=
  Visit.mk (gen_id t) (assign_code t) visitorId executive_id (to_date date)
    time_from time_to purpose visit_type (Some "scheduled") approvalStatus
    None None None None now now.

Definition insert_visit (visitorId : string)
    (executive_id date time_from time_to purpose visit_type : JsValue) (now : Z)
    : M (list Visit.t) :=
  let approvalStatus := JStr "pending" in
  query SqlInsertVisit
    [Some visitorId; prepareValue executive_id; prepareValue date;
     prepareValue time_from; prepareValue time_to; prepareValue purpose;
     prepareValue visit_type; prepareValue approvalStatus]
    (fun t =>
       let row := new_visit t visitorId (prepareValue executive_id)
                    (prepareValue date) (prepareValue time_from)
                    (prepareValue time_to) (prepareValue purpose)
                    (prepareValue visit_type) (prepareValue approvalStatus) now in
       ([row], set_visits (visits t ++ [row]) t)).

(** The body of the [try] block, lines 144-222. *)
Definition createVisit_try (body : gmap string JsValue) (now : Z) : M CompleteVisit :=
  let visitor := field body "visitor" in
  let visit_type :=
    if defined (field body "visit_type") then field body "visit_type"
    else JStr "scheduled" in
  begin ;;;
  executive_id <- normalize_executive (field body "executive_id") ;;
  visitorId <- resolve_visitor visitor now ;;
  visitResult <- insert_visit visitorId executive_id (field body "date")
                   (field body "time_from") (field body "time_to")
                   (field body "purpose") visit_type now ;;
  commit ;;;
  match visitResult with
  | [] => throw (TypeError "id")
  | inserted :: _ =>
      completeVisit <- query SqlSelectCompleteVisit [Some (Visit.id inserted)]
                         (fun t => (select_complete t (Visit.id inserted), t)) ;;
      match completeVisit with
      | [] => throw (TypeError "visit_code")
      | row :: _ => ret row
      end
  end.

Definition createVisit (body : gmap string JsValue) (now : Z) (db : DB)
    : CreateResponse * DB :=
  match createVisit_try body now db with
  | (inr visit, db') => (Created visit, db')
  | (inl error, db') => (CreateFailed error, rollback db')
  end.

(** *** [PUT /api/visits/:id] (lines 231-287) *)

Definition push_if_defined (updates : gmap string JsValue) (key : string)
    (col : VisitColumn) (fields : list (VisitColumn * SqlVal))
    : list (VisitColumn * SqlVal) :=
  if defined (field updates key)
  then fields ++ [(col, prepareValue (field updates key))]
  else fields.

(** Lines 237-259: the [SET] list built from the body. *)
Definition build_fields (updates : gmap string JsValue) : list (VisitColumn * SqlVal) :=
  push_if_defined updates "rejection_reason" col_rejection_reason
    (push_if_defined updates "status" col_visit_status
       (push_if_defined updates "approvedAt" col_approved_at
          (push_if_defined updates "approval" col_approval_status []))).

Definition updateVisit (id : string) (updates : gmap string JsValue) (now : Z) (db : DB)
    : VisitResponse * DB :=
  let fields := build_fields updates in
  match fields with
  | [] => (NoValidFields, db)
  | _ :: _ =>
      match query (SqlUpdateVisit (map fst fields)) (map snd fields ++ [Some id])
              (update_where_id id
                 (fun v => Visit.set_updated_at now (assign_all fields v))) db with
      | (inr [], db') => (VisitNotFound, db')
      | (inr (row :: _), db') => (VisitOk row, db')
      | (inl error, db') => (VisitFailed error, db')
      end
  end.

(** *** [POST /api/visits/validate] (lines 290-353); [now] is [new Date()]. *)

(** Lines 317-348, on the rows the query returned. *)
Definition judge (rows : list GateVisit) (now : Z) : ValidateResponse :=
  match rows with
  | [] => mkValidate 404 (Some false) (Some "Visit not found") None
  | visit :: _ =>
      let visitDate := Date_of_column (gv_date visit) in
      let today := setHours0 now in
      if visitDate <? today
      then mkValidate 200 (Some false) (Some "This pass has expired") (Some visit)
      else if sql_eq (gv_status visit) (Some "cancelled")
      then mkValidate 200 (Some false) (Some "This pass has been cancelled") (Some visit)
      else mkValidate 200 (Some true) None (Some visit)
  end.

Definition validateCode (body : gmap string JsValue) (now : Z) (db : DB)
    : ValidateResponse * DB :=
  let code := prepareValue (field body "code") in
  match query SqlSelectVisitByCode [code]
          (fun t => (select_by_code t code, t)) db with
  | (inr rows, db') => (judge rows now, db')
  | (inl _, db') => (mkValidate 500 None (Some "Validation failed") None, db')
  end.

(** *** [POST /api/visits/:id/checkin] and [.../checkout] (lines 356-403) *)

Definition checkIn (id : string) (now : Z) (db : DB) : VisitResponse * DB :=
  match query SqlCheckin [Some id]
          (update_where_id id
             (fun v => Visit.set_actual_checkin_time (Some now)
                         (Visit.set_visit_status (Some "checked_in") v))) db with
  | (inr [], db') => (VisitNotFound, db')
  | (inr (row :: _), db') => (VisitOk row, db')
  | (inl error, db') => (VisitFailed error, db')
  end.

Definition checkOut (id : string) (now : Z) (db : DB) : VisitResponse * DB :=
  match query SqlCheckout [Some id]
          (update_where_id id
             (fun v => Visit.set_actual_checkout_time (Some now)
                         (Visit.set_visit_status (Some "checked_out") v))) db with
  | (inr [], db') => (VisitNotFound, db')
  | (inr (row :: _), db') => (VisitOk row, db')
  | (inl error, db') => (VisitFailed error, db')
  end.

End Server.

(** ** A concrete store for examples

    A store that rejects nothing, numbers the rows it inserts, and whose
    insert trigger mints the code the generator would preview for 2025. *)

Definition accept_all : Sql -> list SqlVal -> Tables -> bool := fun _ _ _ => false.

Definition serial_id (t : Tables) : string :=
  "id-" +:+ String_of_N (N.of_nat (length (visitors t) + length (visits t))).

Definition trigger_code (t : Tables) : string :=
  format_code 2025 (nextNumber (select_last_code t (code_prefix 2025))).

Definition compound_text (v : JsValue) : string := "{}".

(** The text of a number parameter in the examples, which send the store no
    number beyond 2^53: the decimal numeral, as [toString] gives it there. *)
Definition number_text (n : Z) : string := String_of_Z n.

(** A date parameter is given as the text of its day number. *)
Definition day_of_text (v : SqlVal) : option Z :=
  match v with
  | Some s => option_map Z.of_N (parseInt s)
  | None => None
  end.

(** ** Notions the statements below are phrased with *)

(** The stored codes the [LIKE] pattern of [year] selects. *)
Definition codes_of_year (year : Z) (t : Tables) : list string :=
  List.filter (fun c => String.prefix (code_prefix year) c)
    (map Visit.visit_code (visits t)).

Definition greatest (c : string) (l : list string) : Prop :=
  In c l /\ forall c', In c' l -> String.leb c' c = true.

Definition ends_in_six_digits (c : string) : Prop :=
  exists stem d, c = stem +:+ d /\ String.length d = 6%nat /\ all_digits d = true.

(** The executive a visit names has a row, and that row's user has one. *)
Definition host_resolves (t : Tables) (executive_id : SqlVal) : Prop :=
  exists e u,
    In e (executives t) /\ sql_eq executive_id (Some (Executive.id e)) = true /\
    In u (users t) /\ sql_eq (Executive.user_id e) (Some (User.id u)) = true.

(** The visitor of a visit has a row. *)
Definition visitor_resolves (t : Tables) (visitor_id : string) : Prop :=
  exists vis, In vis (visitors t) /\ String.eqb visitor_id (Visitor.id vis) = true.

(** The rows [vis], [e] and [u] the three [JOIN]s of lines 311-313 (and
    211-213) pair with the visit [v]. *)
Definition joined (t : Tables) (v : Visit.t) (vis : Visitor.t) (e : Executive.t)
    (u : User.t) : Prop :=
  In vis (visitors t) /\ String.eqb (Visit.visitor_id v) (Visitor.id vis) = true /\
  In e (executives t) /\ sql_eq (Visit.executive_id v) (Some (Executive.id e)) = true /\
  In u (users t) /\ sql_eq (Executive.user_id e) (Some (User.id u)) = true.


(** The session right after a successful [BEGIN] on [db]. *)
Definition begun (db : DB) : DB :=
  mkDB (tables db) (match saved db with None => Some (tables db) | s => s end).

(** The error of line 154. *)
Definition no_executives : Exn :=
  Error "No executives found in database. Please add executives first.".


(** The day a visit is scheduled for, as the handler reads the column. *)
Definition scheduled_day (v : Visit.t) : Z := default 0 (Visit.scheduled_date v).

(** The visit columns of a gate payload are those of the row. *)
Definition payload_of (v : Visit.t) (g : GateVisit) : Prop :=
  gv_id g = Visit.id v /\ gv_code g = Visit.visit_code v /\
  gv_date g = Visit.scheduled_date v /\
  gv_time_from g = Visit.scheduled_time_from v /\
  gv_time_to g = Visit.scheduled_time_to v /\
  gv_purpose g = Visit.purpose_of_visit v /\
  gv_status g = Visit.visit_status v /\
  gv_actual_checkin g = Visit.actual_checkin_time v /\
  gv_executive_id g = Visit.executive_id v.




(** Two versions of a visit row that differ at most in the approval status,
    the approval timestamp, the visit status, the rejection reason and the
    update timestamp. *)
Definition same_frame (v v' : Visit.t) : Prop :=
  Visit.id v' = Visit.id v /\
  Visit.visit_code v' = Visit.visit_code v /\
  Visit.visitor_id v' = Visit.visitor_id v /\
  Visit.executive_id v' = Visit.executive_id v /\
  Visit.scheduled_date v' = Visit.scheduled_date v /\
  Visit.scheduled_time_from v' = Visit.scheduled_time_from v /\
  Visit.scheduled_time_to v' = Visit.scheduled_time_to v /\
  Visit.purpose_of_visit v' = Visit.purpose_of_visit v /\
  Visit.visit_type v' = Visit.visit_type v /\
  Visit.actual_checkin_time v' = Visit.actual_checkin_time v /\
  Visit.actual_checkout_time v' = Visit.actual_checkout_time v /\
  Visit.created_at v' = Visit.created_at v.

(** The keys [PUT /api/visits/:id] reads from the body. *)
Definition update_keys : list string :=
  ["approval"; "approvedAt"; "status"; "rejection_reason"].

(** ** Sample data *)

Definition sample_visit (id code : string) (day : Z) (status : string)
    (checkin : option Z) : Visit.t :=
  Visit.mk id code "vis-1" (Some "e-1") (Some day) (Some "10:00") (Some "11:00")
    (Some "Meeting") (Some "scheduled") (Some status) (Some "pending")
    None None checkin None 0 0.

Definition sample_visitor : Visitor.t :=
  Visitor.mk "vis-1" (Some "Ann") (Some "ann@example.org") (Some "555") (Some "Acme") 0.

(** The only executive of the sample store is not active. *)
Definition sample_executive : Executive.t :=
  Executive.mk "e-1" (Some "u-1") (Some "Director") false.

Definition sample_user : User.t :=
  User.mk "u-1" (Some "Bea") (Some "bea@example.org") (Some "Sales") true.

Definition sample_tables_with (vs : list Visit.t) : Tables :=
  mkTables [sample_visitor] [sample_executive] [sample_user] vs.

(** One visit, scheduled for day 20000, with code [GC-2025-000007]. *)
Definition sample_db : DB :=
  mkDB (sample_tables_with [sample_visit "v-1" "GC-2025-000007" 20000 "scheduled" None])
       None.

(** The last code of 2025 is [GC-2025-999999]. *)
Definition full_year_db : DB :=
  mkDB (sample_tables_with [sample_visit "v-1" "GC-2025-999999" 20000 "scheduled" None])
       None.

(** The visit was checked in at time 100. *)
Definition checked_in_db : DB :=
  mkDB (sample_tables_with
          [sample_visit "v-1" "GC-2025-000007" 20000 "checked_in" (Some 100)])
       None.

(** The only executive has no user row. *)
Definition dangling_db : DB :=
  mkDB (mkTables [sample_visitor] [Executive.mk "e-1" None None true] [] []) None.

(** A store that fails on the read of lines 202-215 and on nothing else. *)
Definition reject_final_read (q : Sql) (ps : list SqlVal) (t : Tables) : bool :=
  match q with SqlSelectCompleteVisit => true | _ => false end.

(** A store whose [visitors] columns are all [NOT NULL]: it fails on an
    [INSERT] or [UPDATE] of that table with a [NULL] parameter, and on nothing
    else. *)
Definition not_null_visitors (q : Sql) (ps : list SqlVal) (t : Tables) : bool :=
  match q with
  | SqlInsertVisitor | SqlUpdateVisitor =>
      existsb (fun p => match p with None => true | Some _ => false end) ps
  | _ => false
  end.

(** A store that fails on every [INSERT INTO visitors], whatever the values,
    and on nothing else. *)
Definition reject_visitor_insert (q : Sql) (ps : list SqlVal) (t : Tables) : bool :=
  match q with SqlInsertVisitor => true | _ => false end.

Definition new_visitor : JsValue :=
  JObj {[ "name" := JStr "Bob"; "email" := JStr "bob@example.org";
          "phone" := JStr "777"; "company" := JStr "Initech" ]}.

(** A request body for [POST /api/visits]. *)
Definition visit_body (visitor executive_id visit_type : JsValue) : gmap string JsValue :=
  {[ "visitor" := visitor; "executive_id" := executive_id; "date" := JStr "20001";
     "time_from" := JStr "09:00"; "time_to" := JStr "10:00";
     "purpose" := JStr "Delivery"; "visit_type" := visit_type ]}.

Definition scan (code : string) : gmap string JsValue := {[ "code" := JStr code ]}.

(** Noon of day 20000. *)
Definition noon_20000 : Z := 20000 * ms_per_day + 43200000.

From Stdlib Require Sorted.

(** ** The listing routes of [server.js] *)

(** The read-only statements of the routes below. *)
Inductive ReadSql : Type :=
  | SqlSelectAllVisits          (* line 51 *)
  | SqlSelectActiveExecutives.  (* line 87 *)

(** A row of [GET /api/executives] (lines 88-92). *)
Record ExecutiveRow : Type := mkExecutiveRow {
  er_id : string;
  er_name : SqlVal;
  er_position : SqlVal;
  er_email : SqlVal;
  er_department : SqlVal
}.

(** A row of [GET /api/visits] (lines 52-70). *)
Record ListedVisit : Type := mkListed {
  lv_id : string;
  lv_code : string;
  lv_type : SqlVal;
  lv_date : SqlVal;
  lv_time_from : SqlVal;
  lv_time_to : SqlVal;
  lv_purpose : SqlVal;
  lv_status : SqlVal;
  lv_approval : SqlVal;
  lv_actual_checkin : option Z;
  lv_actual_checkout : option Z;
  lv_created_at : Z;
  lv_executive_id : SqlVal;
  lv_visitor_name : SqlVal;
  lv_visitor_email : SqlVal;
  lv_visitor_phone : SqlVal;
  lv_visitor_company : SqlVal;
  lv_executive_name : SqlVal;
  lv_executive_department : SqlVal
}.

Inductive ExecutivesResponse : Type :=
  | ExecutivesOk (rows : list ExecutiveRow)   (* 200, the rows *)
  | ExecutivesFailed.                         (* 500 'Failed to fetch executives' *)

Inductive VisitsResponse : Type :=
  | VisitsOk (rows : list ListedVisit)        (* 200, the rows *)
  | VisitsFailed.                             (* 500 'Failed to fetch visits' *)

(** [ORDER BY]: insertion sort for the order [before]. *)
Fixpoint insert_by {A : Type} (before : A -> A -> bool) (x : A) (l : list A) : list A :=
  match l with
  | [] => [x]
  | y :: l' => if before x y then x :: l else y :: insert_by before x l'
  end.

Definition sort_by {A : Type} (before : A -> A -> bool) (l : list A) : list A :=
  fold_right (insert_by before) [] l.

(** [a LEFT JOIN b ON ...], for one row of [a]: its matches, or one row of
    [NULL]s when it has none. *)
Definition left_join {B : Type} (matches : list B) : list (option B) :=
  match matches with
  | [] => [None]
  | _ :: _ => map Some matches
  end.

(** [ORDER BY u.full_name]: ascending, a [NULL] name after every name. *)
Definition name_before (a b : SqlVal) : bool :=
  match a, b with
  | Some x, Some y => String.leb x y
  | _, None => true
  | None, Some _ => false
  end.

(** [FROM executives e JOIN users u ON e.user_id = u.id
     WHERE e.is_active = true AND u.is_active = true] *)
Definition active_executives (t : Tables) : list (Executive.t * User.t) :=
  List.filter (fun eu => Executive.is_active (fst eu) && User.is_active (snd eu))
    (flat_map (fun e =>
       map (fun u => (e, u))
         (List.filter (fun u => sql_eq (Executive.user_id e) (Some (User.id u))) (users t)))
       (executives t)).

Definition executive_row (eu : Executive.t * User.t) : ExecutiveRow :=
  mkExecutiveRow (Executive.id (fst eu)) (User.full_name (snd eu))
    (Executive.position (fst eu)) (User.email (snd eu)) (User.department (snd eu)).

(** Lines 87-93. *)
Definition select_executives (t : Tables) : list ExecutiveRow :=
  map executive_row
    (sort_by (fun a b => name_before (User.full_name (snd a)) (User.full_name (snd b)))
       (active_executives t)).

(** [ORDER BY v.scheduled_date DESC]: later dates first, a [NULL] date before
    every date. *)
Definition date_order (a b : option Z) : comparison :=
  match a, b with
  | None, None => Eq
  | None, Some _ => Lt
  | Some _, None => Gt
  | Some x, Some y => Z.compare y x
  end.

(** [FROM visits v LEFT JOIN visitors vis ON v.visitor_id = vis.id
     LEFT JOIN executives e ON v.executive_id = e.id
     LEFT JOIN users u ON e.user_id = u.id] *)
Definition left_join_visit (t : Tables) (v : Visit.t)
  : list (Visit.t * option Visitor.t * option Executive.t * option User.t) :=
  flat_map (fun vis =>
    flat_map (fun e =>
      map (fun u => (v, vis, e, u))
        (left_join
           (List.filter (fun u => sql_eq (e ≫= Executive.user_id) (Some (User.id u)))
              (users t))))
      (left_join
         (List.filter (fun e => sql_eq (Visit.executive_id v) (Some (Executive.id e)))
            (executives t))))
    (left_join
       (List.filter (fun vis => String.eqb (Visit.visitor_id v) (Visitor.id vis))
          (visitors t))).

Section Listing.

(** [db.query] throws on this read in this state of the tables. *)
Variable rejects_read : ReadSql -> Tables -> bool.

(** The store's [TO_CHAR(d, 'YYYY-MM-DD')]. *)
Variable to_char : option Z -> SqlVal.

(** The store's descending order on the TIME column: [time_before a b] when
  [a] may come before [b] under [ORDER BY ... DESC]. *)
Variable time_before : SqlVal -> SqlVal -> bool.

Definition row_before
  (a b : Visit.t * option Visitor.t * option Executive.t * option User.t) : bool :=
let va := fst (fst (fst a)) in
let vb := fst (fst (fst b)) in
match date_order (Visit.scheduled_date va) (Visit.scheduled_date vb) with
| Lt => true
| Gt => false
| Eq => time_before (Visit.scheduled_time_from va) (Visit.scheduled_time_from vb)
end.

Definition listed_row
  (r : Visit.t * option Visitor.t * option Executive.t * option User.t) : ListedVisit :=
let '(v, vis, _, u) := r in
mkListed (Visit.id v) (Visit.visit_code v) (Visit.visit_type v)
  (to_char (Visit.scheduled_date v)) (Visit.scheduled_time_from v)
  (Visit.scheduled_time_to v) (Visit.purpose_of_visit v) (Visit.visit_status v)
  (Visit.approval_status v) (Visit.actual_checkin_time v)
  (Visit.actual_checkout_time v) (Visit.created_at v) (Visit.executive_id v)
  (vis ≫= Visitor.full_name) (vis ≫= Visitor.email) (vis ≫= Visitor.phone)
  (vis ≫= Visitor.company) (u ≫= User.full_name) (u ≫= User.department).

(** Lines 51-76. *)
Definition select_visits (t : Tables) : list ListedVisit :=
map listed_row (sort_by row_before (flat_map (left_join_visit t) (visits t))).

(** [GET /api/visits] (lines 49-82) *)
Definition listVisits (db : DB) : VisitsResponse * DB :=
if rejects_read SqlSelectAllVisits (tables db) then (VisitsFailed, db)
else (VisitsOk (select_visits (tables db)), db).

(** [GET /api/executives] (lines 85-99) *)
Definition listExecutives (db : DB) : ExecutivesResponse * DB :=
if rejects_read SqlSelectActiveExecutives (tables db) then (ExecutivesFailed, db)
else (ExecutivesOk (select_executives (tables db)), db).

End Listing.

(** ** Further notions for the statements *)

(** [v.k], [undefined] standing for a read that throws. *)
Definition prop_of (v : JsValue) (k : string) : JsValue :=
  match get_prop v k with inr x => x | inl _ => JUndefined end.

(** The visitors whose phone is the one given. *)
Definition with_phone (phone : SqlVal) (t : Tables) : list Visitor.t :=
  List.filter (fun r => sql_eq (Visitor.phone r) phone) (visitors t).

(** [v'] differs from [v] at most in the visit status and one more column,
    whose setter is [set]. *)
Definition status_and {X : Type} (set : X -> Visit.t -> Visit.t) (get : Visit.t -> X)
    (v v' : Visit.t) : Prop :=
  v' = set (get v') (Visit.set_visit_status (Visit.visit_status v') v).

(** A stored code of the year in its usual form: the prefix and six digits. *)
Definition well_formed_code (year : Z) (c : string) : Prop :=
  exists d, c = code_prefix year +:+ d /\ String.length d = 6%nat /\ all_digits d = true.

(** The store's order on times taken as the order of their texts. *)
Definition text_before (a b : SqlVal) : bool := name_before b a.

Definition no_read_rejected : ReadSql -> Tables -> bool := fun _ _ => false.

Definition plain_date (d : option Z) : SqlVal :=
  option_map (fun day => String_of_Z day) d.

(** The visit columns of a listed row are those of the visit. *)
Definition listing_of (to_char : option Z -> SqlVal) (v : Visit.t) (r : ListedVisit) : Prop :=
  lv_id r = Visit.id v /\ lv_code r = Visit.visit_code v /\
  lv_type r = Visit.visit_type v /\ lv_date r = to_char (Visit.scheduled_date v) /\
  lv_time_from r = Visit.scheduled_time_from v /\
  lv_time_to r = Visit.scheduled_time_to v /\
  lv_purpose r = Visit.purpose_of_visit v /\ lv_status r = Visit.visit_status v /\
  lv_approval r = Visit.approval_status v /\
  lv_actual_checkin r = Visit.actual_checkin_time v /\
  lv_actual_checkout r = Visit.actual_checkout_time v /\
  lv_created_at r = Visit.created_at v /\ lv_executive_id r = Visit.executive_id v.

(** No two rows of the joined tables share an id. *)
Definition unique_ids (t : Tables) : Prop :=
  List.NoDup (map Visitor.id (visitors t)) /\
  List.NoDup (map Executive.id (executives t)) /\
  List.NoDup (map User.id (users t)).

(** What a check-in and a check-out do to one row. *)
Definition check_in_row (now : Z) (v : Visit.t) : Visit.t :=
  Visit.set_actual_checkin_time (Some now) (Visit.set_visit_status (Some "checked_in") v).

Definition check_out_row (now : Z) (v : Visit.t) : Visit.t :=
  Visit.set_actual_checkout_time (Some now) (Visit.set_visit_status (Some "checked_out") v).

(** ** More sample data *)

(** The visit of the sample store, cancelled. *)
Definition cancelled_db : DB :=
  mkDB (sample_tables_with [sample_visit "v-1" "GC-2025-000007" 20000 "cancelled" None])
       None.

(** Three executives: Zed and Amy are active, the third is not. *)
Definition staff_db : DB :=
  mkDB (mkTables []
          [Executive.mk "e-1" (Some "u-1") (Some "Director") true;
           Executive.mk "e-2" (Some "u-2") (Some "Manager") true;
           Executive.mk "e-3" (Some "u-3") (Some "Advisor") false]
          [User.mk "u-1" (Some "Zed") None (Some "Sales") true;
           User.mk "u-2" (Some "Amy") None (Some "Legal") true;
           User.mk "u-3" (Some "Bob") None (Some "Audit") true]
          [])
       None.

(** Two visits; the visitor and the executive of the second are not stored. *)
Definition two_visits_db : DB :=
  mkDB (sample_tables_with
          [sample_visit "v-1" "GC-2025-000007" 20000 "scheduled" None;
           Visit.mk "v-2" "GC-2025-000008" "vis-9" (Some "e-9") (Some 20005)
             (Some "09:00") None None (Some "walk-in") (Some "scheduled")
             (Some "pending") None None None None 0 0])
       None.

(** ** Facts about strings and decimal numerals *)

Section StringFacts.

Local Open Scope N_scope.

Lemma ascii_compare_N (a b : ascii) :
  Ascii.compare a b = N.compare (N_of_ascii a) (N_of_ascii b).
Proof. reflexivity. Qed.

Lemma string_leb_refl (s : string) : String.leb s s = true.
Proof.
  unfold String.leb. induction s as [|c s IH]; simpl; [reflexivity|].
  rewrite ascii_compare_N, N.compare_refl. exact IH.
Qed.

Lemma string_leb_trans (a b c : string) :
  String.leb a b = true -> String.leb b c = true -> String.leb a c = true.
Proof.
  unfold String.leb. revert b c.
  induction a as [|x a IH]; intros [|y b] [|z c]; simpl; try congruence.
  rewrite !ascii_compare_N.
  destruct (N.compare_spec (N_of_ascii x) (N_of_ascii y)) as [Exy|Lxy|Gxy];
    destruct (N.compare_spec (N_of_ascii y) (N_of_ascii z)) as [Eyz|Lyz|Gyz];
    try congruence;
    destruct (N.compare_spec (N_of_ascii x) (N_of_ascii z)) as [Exz|Lxz|Gxz];
    try congruence; try lia.
  apply IH.
Qed.

Lemma string_append_length (s t : string) :
  String.length (s +:+ t) = (String.length s + String.length t)%nat.
Proof. induction s as [|c s IH]; simpl; [reflexivity | now rewrite IH]. Qed.

Lemma substring_all (s : string) : String.substring 0 (String.length s) s = s.
Proof. induction s as [|c s IH]; simpl; [reflexivity | now rewrite IH]. Qed.

(** The last [length d] characters of [stem ++ d] are [d]. *)
Lemma substring_suffix (stem d : string) :
  String.substring (String.length stem) (String.length d) (stem +:+ d) = d.
Proof.
  induction stem as [|c stem IH]; simpl; [apply substring_all | exact IH].
Qed.

(** A string splits at any position within it. *)
Lemma substring_split (s : string) (k : nat) :
  (k <= String.length s)%nat ->
  s = String.substring 0 k s +:+ String.substring k (String.length s - k) s.
Proof.
  revert k. induction s as [|c s IH]; intros [|k] Hk; simpl in *;
    try reflexivity; try lia.
  - now rewrite substring_all.
  - change (String c (String.substring 0 k s) +:+ ?t)
      with (String c (String.substring 0 k s +:+ t)).
    f_equal. apply IH. lia.
Qed.

Lemma substring_length (s : string) (k m : nat) :
  (k + m <= String.length s)%nat -> String.length (String.substring k m s) = m.
Proof.
  revert k m. induction s as [|c s IH]; intros [|k] [|m] H; simpl in *;
    try reflexivity; try lia.
  - f_equal. apply (IH 0%nat). lia.
  - apply (IH k 0%nat). lia.
  - apply (IH k (S m)). lia.
Qed.

Lemma all_digits_app (s t : string) :
  all_digits (s +:+ t) = all_digits s && all_digits t.
Proof.
  induction s as [|c s IH]; simpl; [reflexivity|].
  now rewrite IH, andb_assoc.
Qed.

Lemma parse_digits_app (s t : string) (acc : N) :
  all_digits s = true ->
  parse_digits acc (s +:+ t) = parse_digits (parse_digits acc s) t.
Proof.
  revert acc. induction s as [|c s IH]; intros acc H; simpl in *; [reflexivity|].
  apply andb_true_iff in H as [Hc Hs]. rewrite Hc. now apply IH.
Qed.

Lemma digit_char_code (d : N) : d < 10 -> N_of_ascii (digit_char d) = 48 + d.
Proof. intros H. unfold digit_char. apply N_ascii_embedding. lia. Qed.

Lemma is_digit_digit_char (d : N) : d < 10 -> is_digit (digit_char d) = true.
Proof.
  intros H. unfold is_digit. rewrite digit_char_code by exact H.
  apply andb_true_iff. split; apply N.leb_le; lia.
Qed.

Lemma digit_value_digit_char (d : N) : d < 10 -> digit_value (digit_char d) = d.
Proof. intros H. unfold digit_value. rewrite digit_char_code by exact H. lia. Qed.

Lemma digits_all_digits (fuel : nat) (n : N) : all_digits (digits fuel n) = true.
Proof.
  revert n. induction fuel as [|fuel IH]; intros n; simpl; [reflexivity|].
  destruct (N.ltb_spec n 10) as [Hlt|Hge]; simpl.
  - now rewrite is_digit_digit_char.
  - rewrite all_digits_app, IH. simpl.
    rewrite is_digit_digit_char; [reflexivity|].
    apply N.mod_lt. lia.
Qed.

(** With enough fuel, reading the numeral back gives the number. *)
Lemma parse_digits_digits (fuel : nat) (n : N) :
  n < 2 ^ N.of_nat fuel -> parse_digits 0 (digits fuel n) = n.
Proof.
  revert n. induction fuel as [|fuel IH]; intros n Hn.
  - simpl in *. lia.
  - cbn [digits]. destruct (N.ltb_spec n 10) as [Hlt|Hge].
    + cbn [parse_digits]. rewrite is_digit_digit_char, digit_value_digit_char by exact Hlt.
      simpl. lia.
    + assert (Hdiv : n / 10 < 2 ^ N.of_nat fuel).
      { rewrite Nat2N.inj_succ, N.pow_succ_r' in Hn.
        apply N.Div0.div_lt_upper_bound. lia. }
      rewrite parse_digits_app by apply digits_all_digits.
      rewrite (IH _ Hdiv). cbn [parse_digits].
      assert (Hm : n mod 10 < 10) by (apply N.mod_lt; lia).
      rewrite is_digit_digit_char, digit_value_digit_char by exact Hm.
      pose proof (N.div_mod n 10). lia.
Qed.

Lemma digits_length (fuel : nat) (n : N) (k : nat) :
  (1 <= k)%nat -> n < 10 ^ N.of_nat k -> (String.length (digits fuel n) <= k)%nat.
Proof.
  revert n k. induction fuel as [|fuel IH]; intros n k Hk Hn; simpl; [lia|].
  destruct (N.ltb_spec n 10) as [Hlt|Hge]; simpl; [lia|].
  rewrite string_append_length. simpl.
  destruct k as [|k]; [lia|].
  destruct k as [|k]; [simpl in Hn; lia|].
  assert (String.length (digits fuel (n / 10)) <= S k)%nat; [|lia].
  apply IH; [lia|].
  rewrite (Nat2N.inj_succ (S k)), N.pow_succ_r' in Hn.
  apply N.Div0.div_lt_upper_bound. lia.
Qed.

Lemma fuel_enough (n : N) : n < 2 ^ N.of_nat (S (N.to_nat (N.log2 n))).
Proof.
  rewrite Nat2N.inj_succ, N2Nat.id.
  destruct (N.eq_dec n 0) as [->|Hn]; [reflexivity|].
  apply N.log2_spec. lia.
Qed.

Lemma String_of_N_all_digits (n : N) : all_digits (String_of_N n) = true.
Proof. apply digits_all_digits. Qed.

Lemma parse_String_of_N (n : N) : parse_digits 0 (String_of_N n) = n.
Proof. apply parse_digits_digits, fuel_enough. Qed.

Lemma String_of_N_length (n : N) (k : nat) :
  (1 <= k)%nat -> n < 10 ^ N.of_nat k -> (String.length (String_of_N n) <= k)%nat.
Proof. apply digits_length. Qed.

Lemma repeat_char_length (c : ascii) (k : nat) : String.length (repeat_char c k) = k.
Proof. induction k as [|k IH]; simpl; [reflexivity | now rewrite IH]. Qed.

Lemma padStart_length (s : string) (w : nat) (c : ascii) :
  String.length (padStart s w c) = Nat.max w (String.length s).
Proof.
  unfold padStart. rewrite string_append_length, repeat_char_length. lia.
Qed.

Lemma padStart_zero_digits (s : string) (w : nat) :
  all_digits s = true -> all_digits (padStart s w "0") = true.
Proof.
  intros H. unfold padStart. rewrite all_digits_app, H, andb_true_r.
  induction (w - String.length s)%nat as [|k IH]; simpl; [reflexivity | exact IH].
Qed.

Lemma padStart_zero_value (s : string) (w : nat) :
  parse_digits 0 (padStart s w "0") = parse_digits 0 s.
Proof.
  unfold padStart.
  induction (w - String.length s)%nat as [|k IH]; simpl; [reflexivity | exact IH].
Qed.

(** The pattern [/(\d{6})$/] matches exactly the strings that end in six
    digits, and captures them. *)
Lemma match_last6_Some (c d : string) :
  match_last6 c = Some d <->
  exists stem, c = stem +:+ d /\ String.length d = 6%nat /\ all_digits d = true.
Proof.
  unfold match_last6. split.
  - destruct (Nat.ltb_spec (String.length c) 6) as [Hlt|Hge]; [discriminate|].
    destruct (all_digits _) eqn:Hd; [|discriminate].
    intros [= <-]. exists (String.substring 0 (String.length c - 6) c).
    split; [|split; [|exact Hd]].
    + pose proof (substring_split c (String.length c - 6)) as Hs.
      replace (String.length c - (String.length c - 6))%nat with 6%nat in Hs by lia.
      apply Hs. lia.
    + apply substring_length. lia.
  - intros (stem & -> & Hlen & Hd).
    rewrite string_append_length, Hlen.
    destruct (Nat.ltb_spec (String.length stem + 6) 6) as [Hlt|Hge]; [lia|].
    replace (String.length stem + 6 - 6)%nat with (String.length stem) by lia.
    rewrite <- Hlen, substring_suffix, Hd. reflexivity.
Qed.

Lemma match_last6_None (c : string) :
  match_last6 c = None <->
  ~ exists stem d, c = stem +:+ d /\ String.length d = 6%nat /\ all_digits d = true.
Proof.
  split.
  - intros H (stem & d & Hd). 
    assert (match_last6 c = Some d) by (apply match_last6_Some; eauto).
    congruence.
  - intros H. destruct (match_last6 c) as [d|] eqn:E; [|reflexivity].
    exfalso. apply H. apply match_last6_Some in E as (stem & E). eauto.
Qed.

Lemma parseInt_digits (d : string) :
  String.length d = 6%nat -> all_digits d = true ->
  parseInt d = Some (parse_digits 0 d).
Proof.
  destruct d as [|c d]; simpl; [discriminate|].
  intros _ H. apply andb_true_iff in H as [-> _]. reflexivity.
Qed.

(** [ORDER BY ... DESC LIMIT 1] picks a greatest element. *)
Lemma order_by_desc_head (l : list string) :
  match order_by_desc l with
  | [] => l = []
  | m :: _ => In m l /\ forall x, In x l -> String.leb x m = true
  end.
Proof.
  induction l as [|a l IH]; simpl; [reflexivity|].
  destruct (order_by_desc l) as [|m r]; simpl.
  - subst l. split; [now left|]. intros x [<-|[]]. apply string_leb_refl.
  - destruct IH as [Hin Hmax].
    destruct (String.leb m a) eqn:Hma.
    + split; [now left|]. intros x [<-|Hx]; [apply string_leb_refl|].
      eapply string_leb_trans; [apply Hmax, Hx | exact Hma].
    + split; [now right|]. intros x [<-|Hx]; [|now apply Hmax].
      destruct (String.leb_total a m) as [H|H]; [exact H | congruence].
Qed.

End StringFacts.

(** ** The code generator *)

Section GenerateCode.

Variable rejects : Sql -> list SqlVal -> Tables -> bool.

Lemma greatest_unique (l : list string) (m c : string) :
  greatest m l -> greatest c l -> m = c.
Proof.
  intros [Hm Hmax] [Hc Hcmax].
  apply String.leb_antisym; [apply Hcmax, Hm | apply Hmax, Hc].
Qed.

(** The query returns nothing when no code has the prefix, and one
    greatest code otherwise. *)
Lemma select_last_code_spec (year : Z) (t : Tables) :
  (codes_of_year year t = [] /\ select_last_code t (code_prefix year) = []) \/
  (exists c, greatest c (codes_of_year year t) /\
             select_last_code t (code_prefix year) = [c]).
Proof.
  unfold select_last_code. fold (codes_of_year year t).
  pose proof (order_by_desc_head (codes_of_year year t)) as H.
  destruct (order_by_desc (codes_of_year year t)) as [|m r].
  - left. split; [exact H | reflexivity].
  - right. exists m. split; [exact H | reflexivity].
Qed.

Lemma nextNumber_value (rows : list string) :
  nextNumber rows =
  Some (match rows with
        | c :: _ => match match_last6 c with
                    | Some d => (parse_digits 0 d + 1)%N
                    | None => 1%N
                    end
        | [] => 1%N
        end).
Proof.
  destruct rows as [|c rows]; simpl; [reflexivity|].
  destruct (match_last6 c) as [d|] eqn:E; [|reflexivity].
  apply match_last6_Some in E as (stem & _ & Hlen & Hd).
  now rewrite (parseInt_digits d Hlen Hd).
Qed.

Lemma padded_numeral (n : N) :
  let s := padStart (String_of_N n) 6 "0" in
  all_digits s = true /\ (6 <= String.length s)%nat /\
  parse_digits 0 s = n /\ ((n < 1000000)%N -> String.length s = 6%nat).
Proof.
  cbv zeta. split; [|split; [|split]].
  - apply padStart_zero_digits, String_of_N_all_digits.
  - rewrite padStart_length. lia.
  - rewrite padStart_zero_value. apply parse_String_of_N.
  - intros Hn. rewrite padStart_length.
    pose proof (String_of_N_length n 6 ltac:(lia) Hn). lia.
Qed.

(** C2, as amended: for every year the generator answers [GC-<year>-<s>],
    [s] being a numeral of at least six digits.  With no stored code of
    that year [s] is [000001].  Otherwise the query selects the greatest
    stored code of the year: when that code ends in six digits of value
    [k], [s] is the numeral of [k + 1], padded with zeros to six digits
    and exactly six digits long as long as [k < 999999]; when it does not
    end in six digits, [s] is [000001].  In particular the code after
    [GC-<year>-000007] is [GC-<year>-000008]. *)
Theorem generateCode_next_code (year : Z) (db : DB)
    (Hq : rejects SqlSelectLastCode [Some (code_prefix year +:+ "%")] (tables db) = false) :
  exists s,
    generateCode rejects year db = (CodeOk (code_prefix year +:+ s), db) /\
    all_digits s = true /\ (6 <= String.length s)%nat /\
    (codes_of_year year (tables db) = [] -> s = "000001") /\
    (forall c, greatest c (codes_of_year year (tables db)) ->
       (forall stem d,
           c = stem +:+ d -> String.length d = 6%nat -> all_digits d = true ->
           parse_digits 0 s = (parse_digits 0 d + 1)%N /\
           ((parse_digits 0 d < 999999)%N -> String.length s = 6%nat)) /\
       (~ ends_in_six_digits c -> s = "000001") /\
       (c = code_prefix year +:+ "000007" -> s = "000008")).
Proof.
  unfold generateCode, query. rewrite Hq. cbn [fst snd].
  destruct db as [t sv]; cbn [tables saved] in *.
  unfold format_code. rewrite nextNumber_value. cbn [String_of_number].
  eexists. split; [reflexivity|].
  destruct (select_last_code_spec year t) as [[Hnil ->]|(m & Hm & ->)].
  - split; [reflexivity|]. split; [simpl; lia|]. split; [reflexivity|].
    intros c [Hc _]. rewrite Hnil in Hc. destruct Hc.
  - set (n := match match_last6 m with
              | Some d => (parse_digits 0 d + 1)%N
              | None => 1%N
              end).
    destruct (padded_numeral n) as (Hdig & Hlen & Hval & Hsix).
    split; [exact Hdig|]. split; [exact Hlen|].
    split; [intros Hnil; destruct Hm as [Hin _]; rewrite Hnil in Hin; destruct Hin|].
    intros c Hc. rewrite <- (greatest_unique _ _ _ Hm Hc). clear c Hc.
    split; [|split].
    + intros stem d -> Hl Hd.
      assert (E : match_last6 (stem +:+ d) = Some d)
        by (apply match_last6_Some; eauto).
      subst n. rewrite E in *. split; [exact Hval|].
      intros Hk. apply Hsix. lia.
    + intros Hno. apply match_last6_None in Hno. subst n. now rewrite Hno.
    + intros ->.
      assert (E : match_last6 (code_prefix year +:+ "000007") = Some "000007")
        by (apply match_last6_Some; exists (code_prefix year); auto).
      subst n. now rewrite E.
Qed.

End GenerateCode.

(** ** Visit creation *)

Section CreateVisit.

Variable rejects : Sql -> list SqlVal -> Tables -> bool.
Variable gen_id : Tables -> string.
Variable assign_code : Tables -> string.
Variable prepareNumber : Z -> string.
Variable prepareCompound : JsValue -> string.
Variable to_date : SqlVal -> option Z.

Abbreviation prepare := (prepareValue prepareNumber prepareCompound).
Abbreviation normalize := (normalize_executive rejects).
Abbreviation resolve := (resolve_visitor rejects gen_id prepareNumber prepareCompound).
Abbreviation insert :=
  (insert_visit rejects gen_id assign_code prepareNumber prepareCompound to_date).
Abbreviation create_try :=
  (createVisit_try rejects gen_id assign_code prepareNumber prepareCompound to_date).
Abbreviation create :=
  (createVisit rejects gen_id assign_code prepareNumber prepareCompound to_date).

Lemma query_outcome {A : Type} (q : Sql) (ps : list SqlVal)
    (run : Tables -> A * Tables) (db : DB) :
  query rejects q ps run db =
  if rejects q ps (tables db) then (inl (DbError (sql_name q)), db)
  else (inr (fst (run (tables db))), mkDB (snd (run (tables db))) (saved db)).
Proof. unfold query. destruct (rejects q ps (tables db)), (run (tables db)); reflexivity. Qed.

Lemma db_eta (db : DB) : mkDB (tables db) (saved db) = db.
Proof. now destruct db. Qed.

Lemma tables_eta (t : Tables) :
  mkTables (visitors t) (executives t) (users t) (visits t) = t.
Proof. now destruct t. Qed.

(** Normalizing the executive id only reads the store. *)
Lemma normalize_frame (v : JsValue) (db : DB) :
  snd (normalize v db) = db.
Proof.
  unfold normalize_executive, bind, lift, ret, throw.
  destruct (typeof_number v); [|destruct (includes_hyphen v) as [e|[|]]]; cbn;
    try reflexivity; rewrite query_outcome;
    destruct (rejects _ _ _); cbn; try reflexivity;
    destruct (executives (tables db)); cbn; now rewrite db_eta.
Qed.

(** Resolving the visitor touches the [visitors] table only, keeps the
    open transaction, and returns the id of a row of that table. *)
Lemma resolve_frame (visitor : JsValue) (now : Z) (db : DB) r db' :
  resolve visitor now db = (r, db') ->
  saved db' = saved db /\
  executives (tables db') = executives (tables db) /\
  users (tables db') = users (tables db) /\
  visits (tables db') = visits (tables db) /\
  (forall id, r = inr id ->
     (exists phone, get_prop visitor "phone" = inr phone) /\
     exists vis, In vis (visitors (tables db')) /\ Visitor.id vis = id).
Proof.
  destruct db as [t sv].
  unfold resolve_visitor, bind, lift, ret, throw, query. intros H.
  repeat (case_match; simplify_eq/=); repeat split; try congruence; eauto.
  - simplify_eq. eexists. split; [apply in_or_app; right; left; reflexivity|].
    reflexivity.
  - simplify_eq.
    match goal with
    | E : map Visitor.id ?l = ?s :: _ |- _ =>
        destruct l as [|hit hits] eqn:Hf; simplify_eq/=;
        assert (Hin : In hit l) by (rewrite Hf; now left)
    end.
    rewrite Hf in Hin. rewrite <- Hf in Hin.
    apply filter_In in Hin as [Hin _].
    eexists. split; [apply in_map, Hin|].
    unfold touch_visitor. now rewrite String.eqb_refl.
Qed.

Lemma insert_outcome (visitorId : string)
    (executive_id date time_from time_to purpose visit_type : JsValue)
    (now : Z) (db : DB) r db' :
  insert visitorId executive_id date time_from time_to purpose visit_type now db
    = (r, db') ->
  (exists e, r = inl e /\ db' = db) \/
  (exists row,
     r = inr [row] /\
     row = new_visit gen_id assign_code to_date (tables db) visitorId
             (prepare executive_id) (prepare date) (prepare time_from)
             (prepare time_to) (prepare purpose) (prepare visit_type)
             (Some "pending") now /\
     db' = mkDB (set_visits (visits (tables db) ++ [row]) (tables db)) (saved db)).
Proof.
  unfold insert_visit, query. intros H.
  repeat (case_match; simplify_eq/=); eauto.
Qed.

(** What one run of the [try] block comes to: either it throws before the
    [COMMIT] has gone through, and then a rollback undoes it; or the
    transaction is committed with exactly one new visit row, and only the
    final read is left to succeed or fail. *)
Lemma create_try_outcome (body : gmap string JsValue) (now : Z) (db : DB) r db' :
  create_try body now db = (r, db') ->
  (exists e, r = inl e /\ rollback db' = rollback db) \/
  (exists exec visitorId t1 row,
     (exists db1, tables db1 = tables db /\
        normalize (field body "executive_id") db1 = (inr exec, db1)) /\
     (exists phone, get_prop (field body "visitor") "phone" = inr phone) /\
     executives t1 = executives (tables db) /\
     users t1 = users (tables db) /\
     visits t1 = visits (tables db) /\
     (exists vis, In vis (visitors t1) /\ Visitor.id vis = visitorId) /\
     row = new_visit gen_id assign_code to_date t1 visitorId (prepare exec)
             (prepare (field body "date")) (prepare (field body "time_from"))
             (prepare (field body "time_to")) (prepare (field body "purpose"))
             (prepare (if defined (field body "visit_type")
                       then field body "visit_type" else JStr "scheduled"))
             (Some "pending") now /\
     db' = mkDB (set_visits (visits t1 ++ [row]) t1) None /\
     (r = inl (DbError (sql_name SqlSelectCompleteVisit)) \/
      (r = inl (TypeError "visit_code") /\
       select_complete (tables db') (Visit.id row) = []) \/
      (exists cv rest, r = inr cv /\
       select_complete (tables db') (Visit.id row) = cv :: rest))).
Proof.
  unfold createVisit_try, bind at 1, begin. intros H.
  destruct (rejects SqlBegin [] (tables db)) eqn:Hb;
    [left; simplify_eq; eauto|].
  set (db1 := mkDB (tables db) _) in H.
  assert (Hroll : rollback db1 = rollback db)
    by (subst db1; unfold rollback; destruct db as [t [s|]]; reflexivity).
  assert (Ht : tables db1 = tables db) by reflexivity.
  assert (Hopen : exists s, saved db1 = Some s)
    by (subst db1; cbn; destruct (saved db); eauto).
  clearbody db1. destruct Hopen as [s0 Hopen].
  unfold bind at 1 in H.
  pose proof (normalize_frame (field body "executive_id") db1) as Hn.
  destruct (normalize (field body "executive_id") db1) as [[e|exec] db2] eqn:En;
    cbn in Hn; subst db2;
    [left; injection H as <- <-; eexists; split; [reflexivity | exact Hroll]|].
  unfold bind at 1 in H.
  destruct (resolve (field body "visitor") now db1) as [[e|visitorId] db3] eqn:Er.
  { apply resolve_frame in Er as (Hs & _). left. injection H as <- <-.
    eexists; split; [reflexivity|]. rewrite <- Hroll. unfold rollback. now rewrite Hs, Hopen. }
  apply resolve_frame in Er as (Hs & He & Hu & Hv & Hvis).
  rewrite Ht in He, Hu, Hv.
  destruct (Hvis _ eq_refl) as (Hphone & Hrow). clear Hvis.
  unfold bind at 1 in H.
  match type of H with context [insert ?a ?b ?c ?d ?e ?f ?g ?h ?i] =>
    destruct (insert a b c d e f g h i) as [ri db4] eqn:Ei end.
  apply insert_outcome in Ei as [(e & -> & ->)|(row & -> & Hr & ->)].
  { left. injection H as <- <-. eexists; split; [reflexivity|].
    rewrite <- Hroll. unfold rollback. now rewrite Hs, Hopen. }
  unfold bind at 1, commit in H. cbn [tables saved] in H.
  destruct (rejects SqlCommit [] _) eqn:Hc.
  { left. injection H as <- <-. eexists; split; [reflexivity|].
    rewrite <- Hroll. unfold rollback. cbn. now rewrite Hs, Hopen. }
  right. exists exec, visitorId, (tables db3), row.
  split; [exists db1; split; [exact Ht | exact En]|].
  split; [exact Hphone|]. repeat (split; [assumption|]).
  unfold bind, query, throw, ret in H. cbn [tables saved] in H.
  destruct (rejects SqlSelectCompleteVisit _ _).
  { simplify_eq. split; [reflexivity|]. now left. }
  destruct (select_complete _ _) as [|cv rest] eqn:Esel; simplify_eq;
    (split; [reflexivity|]); right; [left|right]; eauto.
Qed.

Lemma rollback_closed (db : DB) : saved db = None -> rollback db = db.
Proof. destruct db as [t s]; cbn. intros ->. reflexivity. Qed.

Lemma select_complete_In (t : Tables) (id : string) (cv : CompleteVisit) :
  In cv (select_complete t id) ->
  In (cv_visit cv) (visits t) /\ Visit.id (cv_visit cv) = id.
Proof.
  unfold select_complete. intros H.
  apply in_map_iff in H as ([[[v vis] e] u] & <- & H).
  apply in_flat_map in H as (v' & Hv' & H).
  apply filter_In in Hv' as [Hin Hid]. apply String.eqb_eq in Hid.
  unfold join_visit in H.
  apply in_flat_map in H as (vis' & _ & H).
  apply in_flat_map in H as (e' & _ & H).
  apply in_flat_map in H as (u' & _ & [[= <- <- <- <-]|[]]).
  cbn. auto.
Qed.

(** The new row joins as soon as its visitor and its executive resolve. *)
Lemma select_complete_inserted (t : Tables) (row : Visit.t) :
  visitor_resolves t (Visit.visitor_id row) ->
  host_resolves t (Visit.executive_id row) ->
  select_complete (set_visits (visits t ++ [row]) t) (Visit.id row) <> [].
Proof.
  intros (vis & Hvis & Evis) (e & u & He & Ee & Hu & Eu) Hnil.
  assert (Hin : In (complete_row (row, vis, e, u))
                  (select_complete (set_visits (visits t ++ [row]) t) (Visit.id row))).
  { unfold select_complete. apply in_map. apply in_flat_map. exists row. split.
    - apply filter_In. split; [apply in_or_app; right; now left|].
      apply String.eqb_refl.
    - unfold join_visit. cbn [visitors executives users set_visits].
      apply in_flat_map. exists vis. split; [apply filter_In; auto|].
      apply in_flat_map. exists e. split; [apply filter_In; auto|].
      apply in_flat_map. exists u. split; [apply filter_In; auto|].
      now left. }
  rewrite Hnil in Hin. destruct Hin.
Qed.


(** A 201 answer means the transaction was committed with one new row,
    and the final read found a row with its id. *)
Lemma createVisit_created (body : gmap string JsValue) (now : Z) (db : DB)
    (cv : CompleteVisit) (db' : DB) :
  create body now db = (Created cv, db') ->
  exists exec visitorId t1 row rest,
    (exists db1, tables db1 = tables db /\
       normalize (field body "executive_id") db1 = (inr exec, db1)) /\
    visits t1 = visits (tables db) /\
    row = new_visit gen_id assign_code to_date t1 visitorId (prepare exec)
            (prepare (field body "date")) (prepare (field body "time_from"))
            (prepare (field body "time_to")) (prepare (field body "purpose"))
            (prepare (if defined (field body "visit_type")
                      then field body "visit_type" else JStr "scheduled"))
            (Some "pending") now /\
    db' = mkDB (set_visits (visits t1 ++ [row]) t1) None /\
    select_complete (tables db') (Visit.id row) = cv :: rest.
Proof.
  unfold createVisit. intros Hok.
  destruct (create_try body now db) as [[e|cv'] db''] eqn:E; [discriminate|].
  injection Hok as -> ->.
  apply create_try_outcome in E
    as [(e0 & [=] & _)
       |(exec & vid & t1 & row & Hn & _ & _ & _ & Hv & _ & Hrow & Hdb & Hres)].
  destruct Hres as [[=]|[[[=] _]|(cv' & rest & [= <-] & Hsel)]].
  exists exec, vid, t1, row, rest. auto.
Qed.

(** C3: whenever [createVisit] answers 201, exactly one row has been added
    to [visits], and that row has [visit_status = 'scheduled'] and
    [approval_status = 'pending'], whatever [visit_type] the body carries
    (the row keeps the type it was given); the visit in the response is a
    stored row with the id of the new one, and is the new row itself when no
    older visit has that id. *)
Theorem createVisit_initial_state (body : gmap string JsValue) (now : Z) (db : DB)
    (cv : CompleteVisit) (db' : DB)
    (Hok : create body now db = (Created cv, db')) :
  exists row,
    visits (tables db') = visits (tables db) ++ [row] /\
    Visit.visit_status row = Some "scheduled" /\
    Visit.approval_status row = Some "pending" /\
    Visit.visit_type row =
      prepare (if defined (field body "visit_type")
               then field body "visit_type" else JStr "scheduled") /\
    In (cv_visit cv) (visits (tables db')) /\
    Visit.id (cv_visit cv) = Visit.id row /\
    ((forall v, In v (visits (tables db)) -> Visit.id v <> Visit.id row) ->
     cv_visit cv = row).
Proof.
  apply createVisit_created in Hok
    as (exec & vid & t1 & row & rest & _ & Hv & Hrow & -> & Hsel).
  assert (Hin : In cv (select_complete
                         (set_visits (visits t1 ++ [row]) t1) (Visit.id row)))
    by (cbn [tables] in Hsel; rewrite Hsel; now left).
  apply select_complete_In in Hin as [Hin Hid]. cbn in Hin.
  exists row. cbn. rewrite Hv in *.
  repeat split; try (subst row; reflexivity); try assumption.
  intros Hfresh. apply in_app_or in Hin as [Hold|[Hnew|[]]]; [|congruence].
  exfalso. exact (Hfresh _ Hold Hid).
Qed.

(** Lines 148-155 on an id that is a number or a string without a hyphen:
    the first row of [executives], whatever its [is_active]. *)
Lemma normalize_legacy (v : JsValue) (db : DB) :
  (typeof_number v = true \/ exists s, v = JStr s /\ string_includes s "-" = false) ->
  normalize v db =
  if rejects SqlSelectFirstExecutive [] (tables db)
  then (inl (DbError (sql_name SqlSelectFirstExecutive)), db)
  else match executives (tables db) with
       | e :: _ => (inr (JStr (Executive.id e)), db)
       | [] => (inl no_executives, db)
       end.
Proof.
  intros [Hn|(s & -> & Hs)]; unfold normalize_executive, bind, lift, ret, throw;
    [destruct v; try discriminate|]; cbn; [|rewrite Hs; cbn];
    rewrite query_outcome; destruct (rejects _ _ _); cbn; try reflexivity;
    destruct (executives (tables db)); cbn; rewrite ?db_eta; reflexivity.
Qed.

Lemma get_prop_total (v : JsValue) (k k' : string) (x : JsValue) :
  get_prop v k = inr x -> exists y, get_prop v k' = inr y.
Proof. destruct v; cbn; intros H; try discriminate; eauto. Qed.

Section Accepting.

(** A store that rejects nothing. *)
Hypothesis Hacc : forall q ps t, rejects q ps t = false.

Lemma resolve_succeeds (visitor : JsValue) (now : Z) (db : DB) :
  (exists phone, get_prop visitor "phone" = inr phone) ->
  exists id db', resolve visitor now db = (inr id, db').
Proof.
  intros [phone Hp].
  destruct (get_prop_total _ _ "name" _ Hp) as [name Hname].
  destruct (get_prop_total _ _ "email" _ Hp) as [email Hemail].
  destruct (get_prop_total _ _ "company" _ Hp) as [company Hcompany].
  unfold resolve_visitor, bind, lift, ret, throw, query.
  rewrite Hp, Hacc. cbn.
  destruct (List.filter _ _) as [|hit hits]; cbn;
    rewrite Hname, Hemail, ?Hp, Hcompany, Hacc; cbn; eauto.
Qed.

Lemma create_succeeds (body : gmap string JsValue) (now : Z) (db : DB)
    (exec : JsValue) :
  normalize (field body "executive_id") (begun db) = (inr exec, begun db) ->
  (exists phone, get_prop (field body "visitor") "phone" = inr phone) ->
  host_resolves (tables db) (prepare exec) ->
  exists cv db', create body now db = (Created cv, db').
Proof.
  intros Hn Hphone Hhost.
  destruct (resolve_succeeds (field body "visitor") now (begun db) Hphone)
    as (visitorId & db3 & Er).
  pose proof (resolve_frame _ _ _ _ _ Er) as (Hs & He & Hu & Hv & Hvis).
  destruct (Hvis _ eq_refl) as (_ & vis & Hin & Hid). clear Hvis.
  unfold createVisit, createVisit_try.
  unfold bind at 1, begin. rewrite Hacc. fold (begun db).
  unfold bind at 1. rewrite Hn.
  unfold bind at 1. rewrite Er.
  unfold bind at 1, insert_visit, query. rewrite Hacc.
  unfold bind at 1, commit. cbn [tables saved]. rewrite Hacc.
  unfold bind, ret, throw. rewrite Hacc. cbn [tables saved fst snd].
  match goal with
  | |- context [select_complete (set_visits (visits ?t ++ [?row]) ?t) ?i] =>
      pose proof (select_complete_inserted t row) as Hsel;
      destruct (select_complete (set_visits (visits t ++ [row]) t) i)
  end; [|eauto].
  exfalso. apply Hsel; [| |reflexivity].
  - exists vis. split; [exact Hin|]. cbn. subst visitorId. apply String.eqb_refl.
  - destruct Hhost as (e & u & Hine & Ee & Hinu & Eu).
    exists e, u. cbn in He, Hu. rewrite He, Hu. cbn. auto.
Qed.

End Accepting.

Lemma rollback_begun (db : DB) : saved db = None -> rollback (begun db) = db.
Proof. destruct db as [t s]; cbn. intros ->. reflexivity. Qed.

(** C5, as amended: when [executive_id] is a number or a string without a
    hyphen, the handler takes the first row of [executives], active or
    not.  With an empty table the call fails with the error of line 154 and
    the store is left as it was.  With a first row [e], every created visit
    has [executive_id = e.id]; and the call does succeed when the store
    rejects nothing, the body has a visitor, and the user of [e] exists. *)
Theorem createVisit_substitutes_first_executive
    (body : gmap string JsValue) (now : Z) (db : DB)
    (Hlegacy : typeof_number (field body "executive_id") = true \/
               exists s, field body "executive_id" = JStr s /\
                         string_includes s "-" = false)
    (Hs : saved db = None) :
  (executives (tables db) = [] ->
   rejects SqlBegin [] (tables db) = false ->
   rejects SqlSelectFirstExecutive [] (tables db) = false ->
   create body now db = (CreateFailed no_executives, db)) /\
  (forall e es, executives (tables db) = e :: es ->
     (forall cv db', create body now db = (Created cv, db') ->
        exists row, visits (tables db') = visits (tables db) ++ [row] /\
                    Visit.executive_id row = Some (Executive.id e)) /\
     ((forall q ps t, rejects q ps t = false) ->
      (exists phone, get_prop (field body "visitor") "phone" = inr phone) ->
      (exists u, In u (users (tables db)) /\
                 sql_eq (Executive.user_id e) (Some (User.id u)) = true) ->
      exists cv db', create body now db = (Created cv, db'))).
Proof.
  split; [|intros e es He; split].
  - intros Hnil Hb Hq. unfold createVisit, createVisit_try.
    unfold bind at 1, begin. rewrite Hb. fold (begun db).
    unfold bind at 1. rewrite (normalize_legacy _ _ Hlegacy).
    cbn [tables begun]. rewrite Hq, Hnil. now rewrite rollback_begun.
  - intros cv db' Hok. unfold createVisit in Hok.
    destruct (create_try body now db) as [[e0|cv'] db''] eqn:E; [discriminate|].
    injection Hok as -> ->.
    apply create_try_outcome in E
      as [(e0 & [=] & _)
         |(exec & vid & t1 & row & (db1 & Ht & Hn) & _ & _ & _ & Hv & _ & Hrow & -> & _)].
    rewrite (normalize_legacy _ _ Hlegacy), Ht, He in Hn.
    destruct (rejects SqlSelectFirstExecutive [] (tables db)); [discriminate|].
    injection Hn as <-.
    exists row. cbn. rewrite Hv. split; [reflexivity|]. now subst row.
  - intros Hacc Hphone (u & Hu & Eu).
    apply (create_succeeds Hacc body now db (JStr (Executive.id e))).
    + rewrite (normalize_legacy _ _ Hlegacy), Hacc. cbn [tables begun].
      now rewrite He.
    + exact Hphone.
    + exists e, u. rewrite He. cbn. rewrite String.eqb_refl. auto.
Qed.

(** [includes] on an array looks for an element equal to ['-']: without
    one the array goes the way of a number, with one it is kept. *)
Lemma normalize_array (l : list JsValue) (n : Z) (db : DB) :
  normalize (JArr l) db =
  if existsb (is_str "-") l then (inr (JArr l), db) else normalize (JNum n) db.
Proof.
  unfold normalize_executive, bind, lift, ret, throw. cbn.
  destruct (existsb (is_str "-") l); reflexivity.
Qed.

(** The [try] block reads [executive_id] in the normalization step only. *)
Lemma create_try_ext (body body' : gmap string JsValue) (now : Z) (db : DB) :
  (forall k, k <> "executive_id" -> field body' k = field body k) ->
  (forall db1, normalize (field body' "executive_id") db1
               = normalize (field body "executive_id") db1) ->
  create_try body' now db = create_try body now db.
Proof.
  intros Hk Hn. unfold createVisit_try.
  rewrite (Hk "visitor"), (Hk "visit_type"), (Hk "date"), (Hk "time_from"),
    (Hk "time_to"), (Hk "purpose") by discriminate.
  unfold bind.
  destruct (begin rejects db) as [[e|[]] db1]; [reflexivity|].
  now rewrite Hn.
Qed.

(** C10, as amended: when [executive_id] is [undefined], [null], a boolean
    or an object, the shape test of line 148 throws a [TypeError], and the
    request fails through the [catch] of line 223 with the store rolled back
    to what it was; the error is neither the one of line 154 nor a
    validation error.  An array does not throw, its [includes] being the
    array method: when no element is the string ['-'] the call is answered
    exactly as the same call with any numeric id; when an element is, the
    normalization step returns the array as it is, and any visit the call
    leaves in the store carries the driver's text of the array as its
    executive id. *)
Theorem createVisit_executive_id_without_includes
    (body : gmap string JsValue) (now : Z) (db : DB)
    (Hv : match field body "executive_id" with
          | JNum _ | JStr _ => False
          | _ => True
          end)
    (Hb : rejects SqlBegin [] (tables db) = false)
    (Hs : saved db = None) :
  match field body "executive_id" with
  | JArr l =>
      if existsb (is_str "-") l
      then
        (forall db1, normalize (JArr l) db1 = (inr (JArr l), db1)) /\
        (forall r db', create body now db = (r, db') ->
           (exists e, r = CreateFailed e /\ db' = db) \/
           (exists row, visits (tables db') = visits (tables db) ++ [row] /\
                        Visit.executive_id row = prepare (JArr l)))
      else
        (forall n db1, normalize (JArr l) db1 = normalize (JNum n) db1) /\
        (forall n,
           create body now db = create (<[ "executive_id" := JNum n ]> body) now db)
  | _ => create body now db = (CreateFailed (TypeError "includes"), db)
  end.
Proof.
  destruct (field body "executive_id") as [| |b|n|s|l|m] eqn:E; try contradiction;
    try (unfold createVisit, createVisit_try;
         unfold bind at 1, begin; rewrite Hb; fold (begun db);
         unfold bind at 1, normalize_executive, bind, lift, throw; rewrite E; cbn;
         now rewrite (rollback_begun db Hs)).
  destruct (existsb (is_str "-") l) eqn:El.
  - assert (Hkeep : forall db1, normalize (JArr l) db1 = (inr (JArr l), db1))
      by (intros db1; now rewrite (normalize_array l 0), El).
    split; [exact Hkeep|].
    intros r db'. unfold createVisit.
    destruct (create_try body now db) as [r0 db0] eqn:Et.
    apply create_try_outcome in Et
      as [(e0 & -> & Hr)
         |(exec & vid & t1 & row & (db1 & _ & Hn) & _ & _ & _ & Ht1 & _ & Hrow & -> & Hres)].
    + intros [= <- <-]. left. exists e0. split; [reflexivity|].
      now rewrite Hr, rollback_closed.
    + rewrite E, Hkeep in Hn. injection Hn as <-.
      intros Hres'. right. exists row.
      assert (Hex : Visit.executive_id row = prepare (JArr l)) by now subst row.
      split; [|exact Hex].
      destruct r0 as [e|cv]; injection Hres' as <- <-; cbn; now rewrite Ht1.
  - assert (Hlegacy : forall n db1, normalize (JArr l) db1 = normalize (JNum n) db1)
      by (intros n db1; now rewrite (normalize_array l n), El).
    split; [exact Hlegacy|]. intros n.
    unfold createVisit. rewrite (create_try_ext body (<[ "executive_id" := JNum n ]> body)).
    + reflexivity.
    + intros k Hk. unfold field. now rewrite lookup_insert_ne.
    + intros db1. unfold field at 1. rewrite lookup_insert. cbn [default].
      rewrite E. symmetry. apply Hlegacy.
Qed.

(** [WHERE phone = $1] is true of no row when the parameter is [NULL]. *)
Lemma with_phone_null (t : Tables) : with_phone None t = [].
Proof.
  unfold with_phone. induction (visitors t) as [|r l IH]; cbn; [reflexivity|].
  destruct (Visitor.phone r); exact IH.
Qed.

(** Lines 158-181 on a visitor that is an object: each field is read from
    it, and the statements are the lookup by phone and the update of the
    visitor found, or the insert of a new one. *)
Lemma resolve_object (m : gmap string JsValue) (now : Z) (db : DB) :
  let name := prepare (field m "name") in
  let email := prepare (field m "email") in
  let phone := prepare (field m "phone") in
  let company := prepare (field m "company") in
  resolve (JObj m) now db =
  if rejects SqlSelectVisitorByPhone [phone] (tables db)
  then (inl (DbError (sql_name SqlSelectVisitorByPhone)), db)
  else
    match with_phone phone (tables db) with
    | hit :: _ =>
        if rejects SqlUpdateVisitor [name; email; company; Some (Visitor.id hit)]
             (tables db)
        then (inl (DbError (sql_name SqlUpdateVisitor)), db)
        else (inr (Visitor.id hit),
              mkDB (set_visitors
                      (map (touch_visitor (Visitor.id hit) name email company now)
                         (visitors (tables db))) (tables db)) (saved db))
    | [] =>
        if rejects SqlInsertVisitor [name; email; phone; company] (tables db)
        then (inl (DbError (sql_name SqlInsertVisitor)), db)
        else (inr (gen_id (tables db)),
              mkDB (set_visitors
                      (visitors (tables db) ++
                       [Visitor.mk (gen_id (tables db)) name email phone company now])
                      (tables db)) (saved db))
    end.
Proof.
  cbv zeta. destruct db as [t sv]. unfold with_phone.
  unfold resolve_visitor, bind, lift, ret, throw, query, get_prop.
  cbn [tables saved].
  destruct (rejects SqlSelectVisitorByPhone _ t); [reflexivity|].
  destruct (List.filter _ (visitors t)) as [|hit hits]; cbn [map tables saved];
    destruct (rejects _ _ t); reflexivity.
Qed.

(** C7, as amended: the handler never checks the visitor's fields and has
    no error of its own for them.  When the [visitor] object itself is
    missing ([undefined] or [null]) the call fails through the [catch] of
    line 223 and leaves the store as it was, the error being the
    [TypeError] of reading [visitor.phone] as soon as [BEGIN] and the
    executive step pass.  When [visitor] is an object, a field it lacks is
    sent to the store as [NULL], in the lookup by phone and in the [INSERT]
    (no stored visitor has the phone, as is the case for a [NULL] phone) or
    the [UPDATE] (one has) of the visitor row, and the store alone decides:
    if it rejects one of these statements the call fails with the store's
    error and the store is left as it was; if it accepts them the visitor
    row is written with the values sent, [NULL] included; and a store that
    rejects nothing creates the visit, provided the executive of the visit
    and the executive's user have rows. *)
Theorem createVisit_visitor_unchecked
    (body : gmap string JsValue) (now : Z) (db : DB)
    (Hs : saved db = None) :
  (field body "visitor" = JUndefined \/ field body "visitor" = JNull ->
     (exists e, create body now db = (CreateFailed e, db)) /\
     (forall exec,
        rejects SqlBegin [] (tables db) = false ->
        normalize (field body "executive_id") (begun db) = (inr exec, begun db) ->
        create body now db = (CreateFailed (TypeError "phone"), db))) /\
  (forall m exec,
     field body "visitor" = JObj m ->
     rejects SqlBegin [] (tables db) = false ->
     normalize (field body "executive_id") (begun db) = (inr exec, begun db) ->
     let name := prepare (field m "name") in
     let email := prepare (field m "email") in
     let phone := prepare (field m "phone") in
     let company := prepare (field m "company") in
     let write :=
       match with_phone phone (tables db) with
       | hit :: _ => (SqlUpdateVisitor, [name; email; company; Some (Visitor.id hit)])
       | [] => (SqlInsertVisitor, [name; email; phone; company])
       end in
     (forall k, m !! k = None -> prepare (field m k) = None) /\
     (phone = None -> with_phone phone (tables db) = []) /\
     (rejects SqlSelectVisitorByPhone [phone] (tables db) = true ->
      create body now db
      = (CreateFailed (DbError (sql_name SqlSelectVisitorByPhone)), db)) /\
     (rejects SqlSelectVisitorByPhone [phone] (tables db) = false ->
      rejects (fst write) (snd write) (tables db) = true ->
      create body now db = (CreateFailed (DbError (sql_name (fst write))), db)) /\
     (rejects SqlSelectVisitorByPhone [phone] (tables db) = false ->
      rejects (fst write) (snd write) (tables db) = false ->
      exists id db3 vis,
        resolve (JObj m) now (begun db) = (inr id, db3) /\
        In vis (visitors (tables db3)) /\ Visitor.id vis = id /\
        Visitor.full_name vis = name /\ Visitor.email vis = email /\
        Visitor.company vis = company /\
        (with_phone phone (tables db) = [] ->
         Visitor.phone vis = phone /\
         visitors (tables db3) = visitors (tables db) ++ [vis])) /\
     ((forall q ps t, rejects q ps t = false) ->
      host_resolves (tables db) (prepare exec) ->
      exists cv db' row,
        create body now db = (Created cv, db') /\
        visits (tables db') = visits (tables db) ++ [row])).
Proof.
  split.
  - intros Hmissing.
    assert (Hthrow : get_prop (field body "visitor") "phone" = inl (TypeError "phone"))
      by (destruct Hmissing as [-> | ->]; reflexivity).
    split.
    + unfold createVisit.
      destruct (create_try body now db) as [[e|cv] db'] eqn:E.
      * apply create_try_outcome in E
          as [(e0 & _ & Hr)|(exec & vid & t1 & row & _ & (phone & Hp) & _)];
          [|congruence].
        exists e. now rewrite Hr, rollback_closed.
      * apply create_try_outcome in E
          as [(e0 & [=] & _)|(exec & vid & t1 & row & _ & (phone & Hp) & _)].
        congruence.
    + intros exec Hb Hn. unfold createVisit, createVisit_try.
      unfold bind at 1, begin. rewrite Hb. fold (begun db).
      unfold bind at 1. rewrite Hn.
      unfold bind at 1, resolve_visitor, bind, lift, throw. rewrite Hthrow.
      now rewrite rollback_begun.
  - intros m exec Hm Hb Hn. cbv zeta.
    assert (Hfail : forall e,
              resolve (JObj m) now (begun db) = (inl e, begun db) ->
              create body now db = (CreateFailed e, db)).
    { intros e Hr. unfold createVisit, createVisit_try.
      unfold bind at 1, begin. rewrite Hb. fold (begun db).
      unfold bind at 1. rewrite Hn.
      unfold bind at 1. rewrite Hm, Hr. now rewrite rollback_begun. }
    pose proof (resolve_object m now (begun db)) as Hr. cbv zeta in Hr.
    cbn [tables begun] in Hr.
    split; [intros k Hk; unfold field; now rewrite Hk|].
    split; [intros ->; apply with_phone_null|].
    split; [intros Hq; apply Hfail; now rewrite Hr, Hq|].
    split; [|split].
    + intros Hq Hw. apply Hfail. rewrite Hr, Hq.
      destruct (with_phone _ (tables db)) as [|hit hits]; cbn [fst snd] in Hw;
        now rewrite Hw.
    + intros Hq Hw. rewrite Hr, Hq.
      destruct (with_phone _ (tables db)) as [|hit hits] eqn:Ek; cbn [fst snd] in Hw;
        rewrite Hw.
      * do 3 eexists. split; [reflexivity|]. cbn [tables set_visitors visitors].
        split; [apply in_or_app; right; now left|].
        repeat split; reflexivity.
      * exists (Visitor.id hit). eexists.
        exists (touch_visitor (Visitor.id hit) (prepare (field m "name"))
                  (prepare (field m "email")) (prepare (field m "company")) now hit).
        split; [reflexivity|]. cbn [tables set_visitors visitors].
        assert (Hin : In hit (visitors (tables db))).
        { assert (H : In hit (with_phone (prepare (field m "phone")) (tables db)))
            by (rewrite Ek; now left).
          unfold with_phone in H. now apply filter_In in H. }
        split; [apply in_map, Hin|].
        unfold touch_visitor. rewrite String.eqb_refl. cbn.
        repeat split; try reflexivity; discriminate.
    + intros Hacc Hhost.
      destruct (create_succeeds Hacc body now db exec Hn) as (cv & db' & Hok);
        [rewrite Hm; cbn; eauto | exact Hhost |].
      destruct (createVisit_created _ _ _ _ _ Hok)
        as (_ & _ & t1 & row & _ & _ & Hv & _ & Hdb & _).
      exists cv, db', row. split; [exact Hok|]. subst db'. cbn. now rewrite Hv.
Qed.

End CreateVisit.

(** ** Updating, checking in *)

Section UpdateVisit.

Variable rejects : Sql -> list SqlVal -> Tables -> bool.
Variable prepareNumber : Z -> string.
Variable prepareCompound : JsValue -> string.

Abbreviation update := (updateVisit rejects prepareNumber prepareCompound).
Abbreviation fields_of := (build_fields prepareNumber prepareCompound).

Lemma defined_false (v : JsValue) : defined v = false <-> v = JUndefined.
Proof. destruct v; cbn; split; congruence. Qed.

Lemma build_fields_nil (updates : gmap string JsValue) :
  fields_of updates = [] <->
  forall k, In k update_keys -> field updates k = JUndefined.
Proof.
  unfold build_fields, push_if_defined, update_keys. split.
  - intros H k Hk. apply defined_false.
    destruct (defined (field updates "approval")) eqn:E1;
    destruct (defined (field updates "approvedAt")) eqn:E2;
    destruct (defined (field updates "status")) eqn:E3;
    destruct (defined (field updates "rejection_reason")) eqn:E4;
    try discriminate H.
    destruct Hk as [<-|[<-|[<-|[<-|[]]]]]; assumption.
  - intros H.
    rewrite (H "approval"), (H "approvedAt"), (H "status"), (H "rejection_reason");
      cbn; auto 6.
Qed.

(** The [SET] list depends on the four keys only. *)
Lemma build_fields_ext (updates updates' : gmap string JsValue) :
  (forall k, In k update_keys -> field updates' k = field updates k) ->
  fields_of updates' = fields_of updates.
Proof.
  intros H. unfold build_fields, push_if_defined, update_keys in *.
  rewrite (H "approval"), (H "approvedAt"), (H "status"), (H "rejection_reason");
    cbn; auto 6.
Qed.

Lemma Forall2_diag {A : Type} (P : A -> A -> Prop) (l : list A) :
  (forall x, P x x) -> Forall2 P l l.
Proof. intros H. induction l; constructor; auto. Qed.

Lemma same_frame_refl (v : Visit.t) : same_frame v v.
Proof. unfold same_frame. tauto. Qed.

Lemma assign_all_frame (fields : list (VisitColumn * SqlVal)) (v : Visit.t) :
  same_frame v (assign_all fields v).
Proof.
  unfold assign_all. revert v.
  induction fields as [|[c x] fields IH]; intros v; cbn; [apply same_frame_refl|].
  specialize (IH (assign (c, x) v)).
  unfold same_frame in *. destruct c; cbn in *; exact IH.
Qed.

Lemma update_where_id_visits (id : string) (change : Visit.t -> Visit.t) (t : Tables)
    (P : Visit.t -> Visit.t -> Prop) :
  (forall v, P v v) -> (forall v, Visit.id v = id -> P v (change v)) ->
  Forall2 P (visits t) (visits (snd (update_where_id id change t))).
Proof.
  intros Hrefl Hchange. cbn.
  induction (visits t) as [|v l IH]; cbn; constructor; [|exact IH].
  destruct (String.eqb_spec (Visit.id v) id); auto.
Qed.

Lemma update_where_id_rows (id : string) (change : Visit.t -> Visit.t) (t : Tables) :
  (forall v, Visit.id (change v) = Visit.id v) ->
  (fst (update_where_id id change t) = [] <->
   forall v, In v (visits t) -> Visit.id v <> id) /\
  (forall row, In row (fst (update_where_id id change t)) ->
     In row (visits (snd (update_where_id id change t))) /\
     exists v, In v (visits t) /\ Visit.id v = id /\ row = change v) /\
  (forall v', In v' (visits (snd (update_where_id id change t))) ->
     Visit.id v' = id -> exists v, In v (visits t) /\ Visit.id v = id /\ v' = change v).
Proof.
  intros Hid. cbn. split; [|split].
  - split.
    + intros H v Hv E.
      assert (Hin : In (change v)
                      (map change (List.filter
                         (fun v => String.eqb (Visit.id v) id) (visits t)))).
      { apply in_map, filter_In. split; [exact Hv|]. now apply String.eqb_eq. }
      rewrite H in Hin. destruct Hin.
    + intros H. destruct (List.filter _ _) as [|v l] eqn:E; [reflexivity|].
      assert (Hin : In v (v :: l)) by now left.
      rewrite <- E in Hin. apply filter_In in Hin as [Hin Hv].
      apply String.eqb_eq in Hv. destruct (H v Hin Hv).
  - intros row Hrow. apply in_map_iff in Hrow as (v & <- & Hv).
    apply filter_In in Hv as [Hv E]. split.
    + apply in_map_iff. exists v. rewrite E. auto.
    + apply String.eqb_eq in E. eauto.
  - intros v' Hv' E. apply in_map_iff in Hv' as (v & Hv & Hin).
    destruct (String.eqb_spec (Visit.id v) id) as [Ev|Ev].
    + eauto.
    + subst v'. contradiction.
Qed.

Lemma set_updated_at_id (now : Z) (fields : list (VisitColumn * SqlVal)) (v : Visit.t) :
  Visit.id (Visit.set_updated_at now (assign_all fields v)) = Visit.id v.
Proof. cbn. apply (assign_all_frame fields v). Qed.

(** C6: with none of the four fields in the body the update is refused
    with 400 and the store, update timestamps included, is left as it was;
    with at least one of them, on a visit that exists, the [UPDATE] the
    store accepts also sets [updated_at] to the time of the write, on the
    returned row and on every stored row with that id. *)
Theorem updateVisit_fields_and_timestamp
    (id : string) (updates : gmap string JsValue) (now : Z) (db : DB) :
  ((forall k, In k update_keys -> field updates k = JUndefined) ->
   update id updates now db = (NoValidFields, db)) /\
  ((exists k, In k update_keys /\ field updates k <> JUndefined) ->
   (exists v, In v (visits (tables db)) /\ Visit.id v = id) ->
   rejects (SqlUpdateVisit (map fst (fields_of updates)))
     (map snd (fields_of updates) ++ [Some id]) (tables db) = false ->
   exists row db',
     update id updates now db = (VisitOk row, db') /\
     Visit.id row = id /\ Visit.updated_at row = now /\
     In row (visits (tables db')) /\
     (forall v', In v' (visits (tables db')) -> Visit.id v' = id ->
                 Visit.updated_at v' = now)).
Proof.
  split.
  - intros H. apply build_fields_nil in H. unfold updateVisit. now rewrite H.
  - intros (k & Hk & Hdef) (v & Hv & Hid) Hq. unfold updateVisit.
    destruct (fields_of updates) as [|f fs] eqn:Ef.
    { exfalso. apply Hdef. now apply build_fields_nil. }
    rewrite <- Ef in *. clear Ef f fs.
    unfold query. rewrite Hq.
    set (change := fun v => Visit.set_updated_at now (assign_all (fields_of updates) v)).
    pose proof (update_where_id_rows id change (tables db)
                  (set_updated_at_id now (fields_of updates)))
      as (Hnil & Hrows & Hall).
    destruct (update_where_id id change (tables db)) as [rows t'] eqn:Eu.
    cbn [fst snd] in *.
    destruct rows as [|row rows].
    { exfalso. destruct Hnil as [Hnil _]. exact (Hnil eq_refl v Hv Hid). }
    exists row, (mkDB t' (saved db)). split; [reflexivity|].
    destruct (Hrows row (or_introl eq_refl)) as (Hin & v0 & Hv0 & Hid0 & ->).
    cbn [tables]. split; [|split; [reflexivity|split; [exact Hin|]]].
    + rewrite <- Hid0. apply (set_updated_at_id now (fields_of updates) v0).
    + intros v' Hv' Hid'. destruct (Hall v' Hv' Hid') as (v1 & _ & _ & ->).
      reflexivity.
Qed.

Lemma update_snd (id : string) (updates : gmap string JsValue) (now : Z) (db : DB) :
  exists t',
    snd (update id updates now db) = mkDB t' (saved db) /\
    (t' = tables db \/
     t' = snd (update_where_id id
                 (fun v => Visit.set_updated_at now (assign_all (fields_of updates) v))
                 (tables db))).
Proof.
  unfold updateVisit. destruct (fields_of updates) as [|f fs] eqn:Ef.
  { exists (tables db). rewrite db_eta. auto. }
  rewrite <- Ef. clear Ef f fs. unfold query.
  destruct (rejects _ _ _); [exists (tables db); rewrite db_eta; auto|].
  destruct (update_where_id _ _ _) as [rows t'] eqn:Eu.
  exists t'. split; [now destruct rows|]. right.
  unfold update_where_id in *. now injection Eu as _ <-.
Qed.

(** C9: an update changes nothing outside the [visits] table; in that
    table every row keeps its id, code, visitor, executive, schedule,
    purpose, type, check-in and check-out times and creation time, and a
    row with another id is not changed at all.  The handler reads the four
    keys only: bodies that agree on them get the same answer, so a body
    with none of them is answered like an empty one, with 400. *)
Theorem updateVisit_frame
    (id : string) (updates : gmap string JsValue) (now : Z) (db : DB) :
  let db' := snd (update id updates now db) in
  visitors (tables db') = visitors (tables db) /\
  executives (tables db') = executives (tables db) /\
  users (tables db') = users (tables db) /\
  saved db' = saved db /\
  Forall2 same_frame (visits (tables db)) (visits (tables db')) /\
  Forall2 (fun v v' => Visit.id v <> id -> v' = v)
    (visits (tables db)) (visits (tables db')) /\
  (forall updates' : gmap string JsValue,
     (forall k, In k update_keys -> field updates' k = field updates k) ->
     update id updates' now db = update id updates now db) /\
  ((forall k, In k update_keys -> field updates k = JUndefined) ->
   update id updates now db = update id ∅ now db /\
   update id updates now db = (NoValidFields, db)).
Proof.
  cbv zeta.
  destruct (update_snd id updates now db) as (t' & -> & Ht'). cbn [tables saved].
  assert (Hchange : forall v, same_frame v
            (Visit.set_updated_at now (assign_all (fields_of updates) v))).
  { intros v. pose proof (assign_all_frame (fields_of updates) v) as H.
    unfold same_frame in *. cbn. exact H. }
  repeat match goal with |- _ /\ _ => split end.
  1-6: destruct Ht' as [-> | ->]; cbn [update_where_id snd set_visits visitors
                                        executives users visits];
    try reflexivity.
  - apply Forall2_diag, same_frame_refl.
  - apply (update_where_id_visits id _ (tables db) same_frame same_frame_refl).
    intros v _. apply Hchange.
  - apply Forall2_diag. auto.
  - apply (update_where_id_visits id _ (tables db)
             (fun v v' => Visit.id v <> id -> v' = v)); [auto|].
    intros v E1 E2. contradiction.
  - intros updates' H. unfold updateVisit. now rewrite (build_fields_ext _ _ H).
  - intros H. apply build_fields_nil in H. unfold updateVisit. rewrite H.
    split; reflexivity.
Qed.

(** C8, as amended: a check-in the store accepts, on a visit that exists,
    sets [visit_status = 'checked_in'] and [actual_checkin_time] to the time
    of the call on every row with that id, whatever status and whatever
    check-in time the row had before. *)
Theorem checkIn_unconditional (id : string) (now : Z) (db : DB)
    (Hq : rejects SqlCheckin [Some id] (tables db) = false)
    (Hex : exists v, In v (visits (tables db)) /\ Visit.id v = id) :
  exists row db',
    checkIn rejects id now db = (VisitOk row, db') /\
    In row (visits (tables db')) /\
    Visit.visit_status row = Some "checked_in" /\
    Visit.actual_checkin_time row = Some now /\
    (forall v', In v' (visits (tables db')) -> Visit.id v' = id ->
       Visit.visit_status v' = Some "checked_in" /\
       Visit.actual_checkin_time v' = Some now).
Proof.
  destruct Hex as (v & Hv & Hid). unfold checkIn, query. rewrite Hq.
  set (change := fun v => Visit.set_actual_checkin_time (Some now)
                            (Visit.set_visit_status (Some "checked_in") v)).
  pose proof (update_where_id_rows id change (tables db) (fun v => eq_refl))
    as (Hnil & Hrows & Hall).
  destruct (update_where_id id change (tables db)) as [rows t'] eqn:Eu.
  cbn [fst snd] in *.
  destruct rows as [|row rows].
  { exfalso. destruct Hnil as [Hnil _]. exact (Hnil eq_refl v Hv Hid). }
  exists row, (mkDB t' (saved db)). split; [reflexivity|].
  destruct (Hrows row (or_introl eq_refl)) as (Hin & v0 & _ & _ & ->).
  cbn [tables]. split; [exact Hin|]. split; [reflexivity|]. split; [reflexivity|].
  intros v' Hv' Hid'. destruct (Hall v' Hv' Hid') as (v1 & _ & _ & ->).
  split; reflexivity.
Qed.

End UpdateVisit.

(** ** Gate validation *)

Section ValidateCode.

Variable rejects : Sql -> list SqlVal -> Tables -> bool.
Variable prepareNumber : Z -> string.
Variable prepareCompound : JsValue -> string.

Abbreviation prepare := (prepareValue prepareNumber prepareCompound).
Abbreviation validate := (validateCode rejects prepareNumber prepareCompound).

Lemma setHours0_day (now : Z) : setHours0 now = ms_per_day * (now / ms_per_day).
Proof.
  unfold setHours0. pose proof (Z.div_mod now ms_per_day). unfold ms_per_day in *. lia.
Qed.

(** Comparing the two midnights compares the days. *)
Lemma expired_by_day (d : option Z) (now : Z) :
  (Date_of_column d <? setHours0 now) = (default 0 d <? now / ms_per_day).
Proof.
  rewrite setHours0_day.
  assert (E : Date_of_column d = ms_per_day * default 0 d)
    by (destruct d; unfold Date_of_column; cbn; lia).
  rewrite E.
  destruct (Z.ltb_spec (default 0 d) (now / ms_per_day));
    destruct (Z.ltb_spec (ms_per_day * default 0 d) (ms_per_day * (now / ms_per_day)));
    try reflexivity; unfold ms_per_day in *; lia.
Qed.

Lemma find_filter {A : Type} (f : A -> bool) (l : list A) :
  match find f l with
  | None => List.filter f l = []
  | Some v => exists l', List.filter f l = v :: l'
  end.
Proof.
  induction l as [|a l IH]; cbn; [reflexivity|].
  destruct (f a); [eauto | exact IH].
Qed.

Lemma join_visit_In (t : Tables) (v : Visit.t) r :
  In r (join_visit t v) ->
  exists vis e u, r = (v, vis, e, u) /\
    In vis (visitors t) /\ In e (executives t) /\ In u (users t).
Proof.
  unfold join_visit. intros H.
  apply in_flat_map in H as (vis & Hvis & H). apply filter_In in Hvis as [Hvis _].
  apply in_flat_map in H as (e & He & H). apply filter_In in He as [He _].
  apply in_flat_map in H as (u & Hu & [<-|[]]). apply filter_In in Hu as [Hu _].
  eauto 8.
Qed.

Lemma gate_row_payload (t : Tables) (v : Visit.t) (g : GateVisit) :
  In g (map gate_row (join_visit t v)) -> payload_of v g.
Proof.
  intros H. apply in_map_iff in H as (r & <- & H).
  apply join_visit_In in H as (vis & e & u & -> & _).
  unfold payload_of. cbn. tauto.
Qed.












End ValidateCode.

(** ** The theorems at work on the sample store *)

Abbreviation create0 :=
  (createVisit accept_all serial_id trigger_code number_text compound_text day_of_text).



Lemma generateCode_next_code_witness :
  exists s,
    generateCode accept_all 2025 sample_db = (CodeOk (code_prefix 2025 +:+ s), sample_db) /\
    s = "000008".
Proof.
  destruct (generateCode_next_code accept_all 2025 sample_db eq_refl)
    as (s & Hgen & _ & _ & _ & Hg).
  exists s. split; [exact Hgen|].
  apply (Hg "GC-2025-000007"); [|reflexivity].
  split; [now left|]. intros c' [<-|[]]. reflexivity.
Defined.

(** At the last code of the year the generator answers with seven digits. *)
Lemma generateCode_six_digits_counterexample :
  fst (generateCode accept_all 2025 full_year_db) = CodeOk "GC-2025-1000000" /\
  ~ exists s, String.length s = 6%nat /\
              fst (generateCode accept_all 2025 full_year_db)
              = CodeOk (code_prefix 2025 +:+ s).
Proof.
  split; [reflexivity|].
  intros (s & Hlen & H). vm_compute in H. injection H as H.
  subst s. discriminate Hlen.
Qed.

Lemma createVisit_initial_state_witness :
  exists cv db' row,
    create0 (visit_body new_visitor (JNum 5) (JStr "walk-in")) 1000 sample_db
      = (Created cv, db') /\
    visits (tables db') = visits (tables sample_db) ++ [row] /\
    Visit.visit_type row = Some "walk-in" /\
    Visit.visit_status row = Some "scheduled" /\
    Visit.approval_status row = Some "pending".
Proof.
  destruct (create0 (visit_body new_visitor (JNum 5) (JStr "walk-in")) 1000 sample_db)
    as [r db'] eqn:E.
  assert (Hr : exists cv, r = Created cv)
    by (vm_compute in E; injection E as <- _; eauto).
  destruct Hr as [cv ->].
  destruct (createVisit_initial_state accept_all serial_id trigger_code number_text compound_text
              day_of_text _ _ _ _ _ E) as (row & Hrow & Hst & Hap & Hty & _).
  exists cv, db', row. repeat split; assumption.
Defined.

(** C4, where the code departs from it: when the read that follows the
    [COMMIT] fails, the answer is 500 'Failed to create visit' and the
    [ROLLBACK] of the [catch] finds no open transaction, so the new visitor
    and the new visit stay in the store. *)
Lemma createVisit_failure_after_commit_persists :
  exists db' visitor visit,
    createVisit reject_final_read serial_id trigger_code number_text compound_text day_of_text
      (visit_body new_visitor (JNum 5) (JStr "scheduled")) 1000 sample_db
    = (CreateFailed (DbError "SELECT v.* FROM visits v"), db') /\
    visitors (tables db') = visitors (tables sample_db) ++ [visitor] /\
    visits (tables db') = visits (tables sample_db) ++ [visit] /\
    saved db' = None.
Proof. do 3 eexists. vm_compute. repeat split; reflexivity. Qed.

(** The same with a store that rejects nothing, when the substituted
    executive has no user row: the final read returns no row. *)
Lemma createVisit_failure_on_empty_join_persists :
  exists db' visit,
    create0 (visit_body (JObj {[ "phone" := JStr "555" ]}) (JNum 5) (JStr "scheduled"))
      1000 dangling_db
    = (CreateFailed (TypeError "visit_code"), db') /\
    visits (tables db') = [visit] /\ saved db' = None.
Proof. do 2 eexists. vm_compute. repeat split; reflexivity. Qed.

Lemma createVisit_substitutes_first_executive_witness :
  exists cv db',
    create0 (visit_body new_visitor (JStr "7") (JStr "scheduled")) 1000 sample_db
    = (Created cv, db').
Proof.
  destruct (createVisit_substitutes_first_executive accept_all serial_id trigger_code
              number_text compound_text day_of_text
              (visit_body new_visitor (JStr "7") (JStr "scheduled")) 1000 sample_db)
    as (_ & H).
  - right. exists "7". split; reflexivity.
  - reflexivity.
  - destruct (H sample_executive [] eq_refl) as (_ & Hok).
    apply Hok.
    + reflexivity.
    + eexists. reflexivity.
    + exists sample_user. split; [now left | reflexivity].
Defined.

(** No executive of the sample store is active, and the legacy id 5 is
    replaced by the inactive one; an id that merely contains a hyphen is
    kept as it is. *)
Lemma createVisit_inactive_executive_counterexample :
  (forall e, In e (executives (tables sample_db)) -> Executive.is_active e = false) /\
  (exists cv db',
     create0 (visit_body new_visitor (JNum 5) (JStr "scheduled")) 1000 sample_db
     = (Created cv, db') /\
     Visit.executive_id (cv_visit cv) = Some "e-1") /\
  fst (normalize_executive accept_all (JStr "not-a-uuid") sample_db)
  = inr (JStr "not-a-uuid").
Proof.
  split; [|split].
  - intros e [<-|[]]. reflexivity.
  - do 2 eexists. vm_compute. split; reflexivity.
  - reflexivity.
Qed.

Lemma createVisit_visitor_unchecked_witness :
  (exists e,
     create0 (visit_body JUndefined (JNum 5) (JStr "scheduled")) 1000 sample_db
     = (CreateFailed e, sample_db)) /\
  createVisit not_null_visitors serial_id trigger_code number_text compound_text
    day_of_text (visit_body (JObj ∅) (JNum 5) (JStr "scheduled")) 1000 sample_db
  = (CreateFailed (DbError "INSERT INTO visitors"), sample_db).
Proof.
  split.
  - destruct (createVisit_visitor_unchecked accept_all serial_id trigger_code
                number_text compound_text day_of_text
                (visit_body JUndefined (JNum 5) (JStr "scheduled")) 1000 sample_db eq_refl)
      as (H & _).
    apply H. left. reflexivity.
  - destruct (createVisit_visitor_unchecked not_null_visitors serial_id trigger_code
                number_text compound_text day_of_text
                (visit_body (JObj ∅) (JNum 5) (JStr "scheduled")) 1000 sample_db eq_refl)
      as (_ & H).
    destruct (H ∅ (JStr "e-1") eq_refl eq_refl eq_refl) as (_ & _ & _ & Hw & _).
    apply Hw; reflexivity.
Defined.

(** A visitor without any field.  A store that takes the [NULL]s creates
    the visit all the same.  A store that refuses them makes the call fail,
    but with the store's own error: the very answer a complete visitor gets
    when its [INSERT] fails for any other reason. *)
Lemma createVisit_missing_fields_counterexample :
  (exists cv db' visitor visit,
     create0 (visit_body (JObj ∅) (JNum 5) (JStr "scheduled")) 1000 sample_db
     = (Created cv, db') /\
     visitors (tables db') = visitors (tables sample_db) ++ [visitor] /\
     Visitor.full_name visitor = None /\ Visitor.phone visitor = None /\
     visits (tables db') = visits (tables sample_db) ++ [visit]) /\
  createVisit not_null_visitors serial_id trigger_code number_text compound_text
    day_of_text (visit_body (JObj ∅) (JNum 5) (JStr "scheduled")) 1000 sample_db
  = (CreateFailed (DbError "INSERT INTO visitors"), sample_db) /\
  createVisit reject_visitor_insert serial_id trigger_code number_text compound_text
    day_of_text (visit_body new_visitor (JNum 5) (JStr "scheduled")) 1000 sample_db
  = (CreateFailed (DbError "INSERT INTO visitors"), sample_db).
Proof.
  split; [|split; reflexivity].
  do 4 eexists. vm_compute. repeat split; reflexivity.
Qed.

Lemma createVisit_executive_id_without_includes_witness :
  create0 (visit_body new_visitor JNull (JStr "scheduled")) 1000 sample_db
  = (CreateFailed (TypeError "includes"), sample_db) /\
  create0 (visit_body new_visitor (JArr []) (JStr "scheduled")) 1000 sample_db
  = create0 (<[ "executive_id" := JNum 0 ]>
               (visit_body new_visitor (JArr []) (JStr "scheduled"))) 1000 sample_db /\
  (exists row db',
     create0 (visit_body new_visitor (JArr [JStr "-"]) (JStr "scheduled")) 1000 sample_db
     = (CreateFailed (TypeError "visit_code"), db') /\
     visits (tables db') = visits (tables sample_db) ++ [row] /\
     Visit.executive_id row = Some "{}").
Proof.
  split; [|split].
  - exact (createVisit_executive_id_without_includes accept_all serial_id trigger_code
             number_text compound_text day_of_text
             (visit_body new_visitor JNull (JStr "scheduled")) 1000 sample_db
             I eq_refl eq_refl).
  - pose proof (createVisit_executive_id_without_includes accept_all serial_id
                  trigger_code number_text compound_text day_of_text
                  (visit_body new_visitor (JArr []) (JStr "scheduled")) 1000
                  sample_db I eq_refl eq_refl) as H.
    hnf in H. exact (proj2 H 0).
  - pose proof (createVisit_executive_id_without_includes accept_all serial_id
                  trigger_code number_text compound_text day_of_text
                  (visit_body new_visitor (JArr [JStr "-"]) (JStr "scheduled")) 1000
                  sample_db I eq_refl eq_refl) as H.
    hnf in H. destruct H as [_ H].
    destruct (create0 (visit_body new_visitor (JArr [JStr "-"]) (JStr "scheduled"))
                1000 sample_db) as [r db'] eqn:E.
    assert (Hr : r = CreateFailed (TypeError "visit_code"))
      by (vm_compute in E; congruence).
    destruct (H r db' eq_refl) as [(e & _ & ->)|(row & Hrow & Hex)].
    + vm_compute in E. discriminate E.
    + exists row, db'. rewrite Hr. repeat split; assumption.
Defined.

(** An array is neither a number nor a string, and its [includes] does not
    throw: the id is replaced and the visit created. *)
Lemma createVisit_array_executive_id_counterexample :
  exists cv db',
    create0 (visit_body new_visitor (JArr []) (JStr "scheduled")) 1000 sample_db
    = (Created cv, db') /\
    Visit.executive_id (cv_visit cv) = Some "e-1".
Proof. do 2 eexists. vm_compute. split; reflexivity. Qed.

Lemma updateVisit_fields_and_timestamp_witness :
  updateVisit accept_all number_text compound_text "v-1" {[ "note" := JStr "x" ]} 500 sample_db
    = (NoValidFields, sample_db) /\
  exists row db',
    updateVisit accept_all number_text compound_text "v-1" {[ "approval" := JStr "approved" ]}
      500 sample_db = (VisitOk row, db') /\
    Visit.updated_at row = 500.
Proof.
  split.
  - apply (updateVisit_fields_and_timestamp accept_all number_text compound_text).
    intros k [<-|[<-|[<-|[<-|[]]]]]; reflexivity.
  - destruct (updateVisit_fields_and_timestamp accept_all number_text compound_text "v-1"
                {[ "approval" := JStr "approved" ]} 500 sample_db) as (_ & H).
    destruct H as (row & db' & Hok & _ & Hup & _).
    + exists "approval". split; [now left | discriminate].
    + eexists. split; [now left | reflexivity].
    + reflexivity.
    + eauto.
Defined.

Lemma updateVisit_frame_witness :
  updateVisit accept_all number_text compound_text "v-1"
    {[ "visit_code" := JStr "GC-1999-000001"; "actual_checkin" := JNum 1 ]} 500 sample_db
  = (NoValidFields, sample_db).
Proof.
  apply (updateVisit_frame accept_all number_text compound_text).
  intros k [<-|[<-|[<-|[<-|[]]]]]; reflexivity.
Defined.

Lemma checkIn_unconditional_witness :
  exists row db',
    checkIn accept_all "v-1" 200 checked_in_db = (VisitOk row, db') /\
    Visit.actual_checkin_time row = Some 200.
Proof.
  destruct (checkIn_unconditional accept_all "v-1" 200 checked_in_db eq_refl)
    as (row & db' & Hok & _ & _ & Htime & _).
  - eexists. split; [now left | reflexivity].
  - eauto.
Defined.

(** A second check-in replaces the check-in time of a visit that is already
    checked in, and an update can move a visit to 'checked_in' without any
    check-in time. *)
Lemma checkIn_overwrites_counterexample :
  (exists row db',
     visits (tables checked_in_db)
       = [sample_visit "v-1" "GC-2025-000007" 20000 "checked_in" (Some 100)] /\
     checkIn accept_all "v-1" 200 checked_in_db = (VisitOk row, db') /\
     visits (tables db') = [row] /\
     Visit.actual_checkin_time row = Some 200) /\
  (exists row db',
     updateVisit accept_all number_text compound_text "v-1" {[ "status" := JStr "checked_in" ]}
       200 sample_db = (VisitOk row, db') /\
     Visit.visit_status row = Some "checked_in" /\
     Visit.actual_checkin_time row = None).
Proof.
  split; do 2 eexists; vm_compute; repeat split; reflexivity.
Qed.

(** ** More on the code generator *)

Section NumeralOrder.

Local Open Scope N_scope.

Lemma parse_digits_acc (s : string) (acc : N) :
all_digits s = true ->
parse_digits acc s = acc * 10 ^ N.of_nat (String.length s) + parse_digits 0 s.
Proof.
revert acc. induction s as [|c s IH]; intros acc H; cbn [parse_digits String.length].
- cbn. lia.
- cbn [all_digits] in H. apply andb_true_iff in H as [Hc Hs]. rewrite Hc.
  rewrite (IH (10 * acc + digit_value c) Hs), (IH (10 * 0 + digit_value c) Hs).
  rewrite Nat2N.inj_succ, N.pow_succ_r'. lia.
Qed.

Lemma parse_digits_bound (s : string) :
all_digits s = true -> parse_digits 0 s < 10 ^ N.of_nat (String.length s).
Proof.
induction s as [|c s IH]; intros H; cbn [parse_digits String.length].
- cbn. lia.
- cbn [all_digits] in H. apply andb_true_iff in H as [Hc Hs]. rewrite Hc.
  rewrite (parse_digits_acc s _ Hs), Nat2N.inj_succ, N.pow_succ_r'.
  specialize (IH Hs).
  assert (digit_value c <= 9).
  { unfold is_digit in Hc. apply andb_true_iff in Hc as [_ Hc].
    apply N.leb_le in Hc. unfold digit_value. lia. }
  nia.
Qed.

(** On numerals of one length the order of the strings is the order of the
  numbers. *)
Lemma numeral_order (a b : string) :
String.length a = String.length b ->
all_digits a = true -> all_digits b = true ->
String.leb a b = true -> parse_digits 0 a <= parse_digits 0 b.
Proof.
unfold String.leb. revert b.
induction a as [|x a IH]; intros [|y b] Hlen Ha Hb Hle; try discriminate Hlen;
  [cbn; lia|].
cbn [all_digits] in Ha, Hb.
apply andb_true_iff in Ha as [Hx Ha]. apply andb_true_iff in Hb as [Hy Hb].
injection Hlen as Hlen.
cbn [parse_digits]. rewrite Hx, Hy.
rewrite (parse_digits_acc a _ Ha), (parse_digits_acc b _ Hb), Hlen.
pose proof (parse_digits_bound a Ha) as Ba. rewrite Hlen in Ba.
cbn [String.compare] in Hle. rewrite ascii_compare_N in Hle.
unfold is_digit in Hx, Hy.
apply andb_true_iff in Hx as [Hx1 Hx2]. apply andb_true_iff in Hy as [Hy1 Hy2].
apply N.leb_le in Hx1, Hx2, Hy1, Hy2. unfold digit_value.
destruct (N.compare_spec (N_of_ascii x) (N_of_ascii y)) as [E|L|G].
- rewrite E. specialize (IH b Hlen Ha Hb Hle). lia.
- nia.
- discriminate Hle.
Qed.

Lemma leb_common_prefix (p a b : string) :
String.leb (p +:+ a) (p +:+ b) = String.leb a b.
Proof.
unfold String.leb. induction p as [|c p IH]; simpl; [reflexivity|].
rewrite ascii_compare_N, N.compare_refl. exact IH.
Qed.

Lemma append_inv_prefix (p a b : string) : p +:+ a = p +:+ b -> a = b.
Proof. induction p as [|c p IH]; cbn; [auto|]. intros [= H]. auto. Qed.

Lemma prefix_append (p s : string) : String.prefix p (p +:+ s) = true.
Proof.
induction p as [|c p IH]; simpl; [now destruct s|].
destruct (ascii_dec c c); [exact IH | contradiction].
Qed.

Lemma ltb_not_leb (a b : string) : String.leb b a = false -> String.ltb a b = true.
Proof.
unfold String.leb, String.ltb. rewrite (String.compare_antisym a b).
destruct (String.compare b a); cbn; congruence.
Qed.

End NumeralOrder.

Section FreshCode.

Variable rejects : Sql -> list SqlVal -> Tables -> bool.

(** When the stored codes of the year have the usual form and the greatest
  has not reached 999999, the generated code has that form too, is no stored
  code of any visit, and comes after every stored code of the year. *)
Theorem generateCode_fresh (year : Z) (db : DB)
  (Hq : rejects SqlSelectLastCode [Some (code_prefix year +:+ "%")] (tables db) = false)
  (Hform : forall c, In c (codes_of_year year (tables db)) -> well_formed_code year c)
  (Hroom : forall d, In (code_prefix year +:+ d) (codes_of_year year (tables db)) ->
             String.length d = 6%nat -> all_digits d = true ->
             (parse_digits 0 d < 999999)%N) :
exists s,
  generateCode rejects year db = (CodeOk (code_prefix year +:+ s), db) /\
  well_formed_code year (code_prefix year +:+ s) /\
  forall v, In v (visits (tables db)) ->
    Visit.visit_code v <> code_prefix year +:+ s /\
    (String.prefix (code_prefix year) (Visit.visit_code v) = true ->
     String.ltb (Visit.visit_code v) (code_prefix year +:+ s) = true).
Proof.
unfold generateCode, query. rewrite Hq. cbn [fst snd].
unfold format_code. rewrite nextNumber_value. cbn [String_of_number].
rewrite db_eta.
assert (Hcodes : forall v, In v (visits (tables db)) ->
          String.prefix (code_prefix year) (Visit.visit_code v) = true ->
          In (Visit.visit_code v) (codes_of_year year (tables db))).
{ intros v Hv Hp. unfold codes_of_year. apply filter_In. split; [|exact Hp].
  now apply in_map. }
destruct (select_last_code_spec year (tables db)) as [[Hnil ->]|(m & Hm & ->)].
- eexists. split; [reflexivity|]. split; [exists "000001"; auto|].
  intros v Hv.
  assert (Hno : String.prefix (code_prefix year) (Visit.visit_code v) = false).
  { destruct (String.prefix (code_prefix year) (Visit.visit_code v)) eqn:E; [|reflexivity].
    pose proof (Hcodes v Hv E) as Hin. rewrite Hnil in Hin. destruct Hin. }
  split; [|congruence].
  intros E. rewrite E, prefix_append in Hno. discriminate.
- destruct (Hform m (proj1 Hm)) as (dm & -> & Hlen & Hdig).
  assert (Em : match_last6 (code_prefix year +:+ dm) = Some dm) by (apply match_last6_Some; eauto).
  rewrite Em.
  pose proof (Hroom dm (proj1 Hm) Hlen Hdig) as Hk.
  destruct (padded_numeral (parse_digits 0 dm + 1)) as (Hsd & _ & Hsv & Hs6).
  set (s := padStart (String_of_N (parse_digits 0 dm + 1)) 6 "0") in *.
  assert (Hslen : String.length s = 6%nat) by (apply Hs6; lia).
  exists s. split; [reflexivity|]. split; [exists s; auto|].
  intros v Hv.
  destruct (String.prefix (code_prefix year) (Visit.visit_code v)) eqn:Ep.
  + pose proof (Hcodes v Hv Ep) as Hin.
    destruct (Hform _ Hin) as (d & Ed & Hdlen & Hddig).
    assert (Hle : (parse_digits 0 d <= parse_digits 0 dm)%N).
    { apply numeral_order; try assumption; [congruence|].
      rewrite <- (leb_common_prefix (code_prefix year)), <- Ed. apply (proj2 Hm), Hin. }
    assert (Hnot : String.leb s d = false).
    { destruct (String.leb s d) eqn:E; [|reflexivity].
      apply numeral_order in E; try assumption; [lia | congruence]. }
    rewrite Ed. split.
    * intros E. apply append_inv_prefix in E. subst d.
      rewrite string_leb_refl in Hnot. discriminate.
    * intros _. apply ltb_not_leb. now rewrite leb_common_prefix.
  + split; [|discriminate].
    intros E. rewrite E, prefix_append in Ep. discriminate.
Qed.

End FreshCode.

(** ** More on updates, check-in and check-out *)

Section Transitions.

Variable rejects : Sql -> list SqlVal -> Tables -> bool.
Variable prepareNumber : Z -> string.
Variable prepareCompound : JsValue -> string.

Abbreviation prepare := (prepareValue prepareNumber prepareCompound).
Abbreviation update := (updateVisit rejects prepareNumber prepareCompound).
Abbreviation fields_of := (build_fields prepareNumber prepareCompound).

Lemma update_where_id_no_hit (id : string) (change : Visit.t -> Visit.t) (t : Tables) :
(forall v, In v (visits t) -> Visit.id v <> id) ->
update_where_id id change t = ([], t).
Proof.
intros Hno. unfold update_where_id.
assert (Hmap : map (fun v => if String.eqb (Visit.id v) id then change v else v)
                 (visits t) = visits t /\
               List.filter (fun v => String.eqb (Visit.id v) id) (visits t) = []).
{ induction (visits t) as [|v l IH]; cbn; [auto|].
  destruct (String.eqb_spec (Visit.id v) id) as [E|E].
  - exfalso. apply (Hno v); [now left | exact E].
  - destruct IH as [IH1 IH2]; [intros w Hw; apply Hno; now right|].
    now rewrite IH1, IH2. }
destruct Hmap as [-> ->]. cbn. f_equal. now destruct t.
Qed.

Lemma update_where_id_map (id : string) (change : Visit.t -> Visit.t) (t : Tables) :
visits (snd (update_where_id id change t))
= map (fun v => if String.eqb (Visit.id v) id then change v else v) (visits t).
Proof. reflexivity. Qed.

(** The answer of an update in terms of the rows it hits. *)
Lemma update_ok (id : string) (updates : gmap string JsValue) (now : Z) (db : DB)
  (row : Visit.t) (db' : DB) :
update id updates now db = (VisitOk row, db') ->
let change := fun v => Visit.set_updated_at now (assign_all (fields_of updates) v) in
db' = mkDB (snd (update_where_id id change (tables db))) (saved db) /\
exists v, In v (visits (tables db)) /\ Visit.id v = id /\ row = change v.
Proof.
cbv zeta. unfold updateVisit.
destruct (fields_of updates) as [|f fs] eqn:Ef; [discriminate|].
rewrite <- Ef. clear Ef f fs. unfold query.
destruct (rejects _ _ _); [discriminate|].
pose proof (update_where_id_rows id
              (fun v => Visit.set_updated_at now (assign_all (fields_of updates) v))
              (tables db) (set_updated_at_id now (fields_of updates)))
  as (_ & Hrows & _).
destruct (update_where_id _ _ _) as [rows t'] eqn:Eu. cbn [fst snd] in *.
destruct rows as [|r rows]; [discriminate|].
intros [= -> <-]. split; [reflexivity|].
destruct (Hrows row (or_introl eq_refl)) as (_ & v & Hv & Hid & ->). eauto.
Qed.

(** An update writes only when it answers 200: a refused, failed or
  not-found update leaves the store exactly as it was.  With at least one
  field given and an [UPDATE] the store accepts, the answer is 404 exactly
  when no visit has the id. *)
Theorem updateVisit_writes_only_on_200
  (id : string) (updates : gmap string JsValue) (now : Z) (db : DB) :
((forall row, fst (update id updates now db) <> VisitOk row) ->
 snd (update id updates now db) = db) /\
((exists k, In k update_keys /\ field updates k <> JUndefined) ->
 rejects (SqlUpdateVisit (map fst (fields_of updates)))
   (map snd (fields_of updates) ++ [Some id]) (tables db) = false ->
 (update id updates now db = (VisitNotFound, db) <->
  forall v, In v (visits (tables db)) -> Visit.id v <> id)).
Proof.
split.
- unfold updateVisit.
  destruct (fields_of updates) as [|f fs] eqn:Ef; [reflexivity|].
  rewrite <- Ef. clear Ef f fs. unfold query.
  destruct (rejects _ _ _); [reflexivity|].
  set (change := fun v => Visit.set_updated_at now (assign_all (fields_of updates) v)).
  pose proof (update_where_id_rows id change (tables db)
                (set_updated_at_id now (fields_of updates))) as ([Hnil _] & _).
  destruct (update_where_id id change (tables db)) as [rows t'] eqn:Eu.
  cbn [fst snd] in *. destruct rows as [|r rows].
  + intros _. rewrite (update_where_id_no_hit id change _ (Hnil eq_refl)) in Eu.
    injection Eu as <-. apply db_eta.
  + intros H. exfalso. exact (H r eq_refl).
- intros (k & Hk & Hdef) Hq. unfold updateVisit.
  destruct (fields_of updates) as [|f fs] eqn:Ef.
  { exfalso. apply Hdef. now apply (build_fields_nil prepareNumber prepareCompound). }
  rewrite <- Ef in *. clear Ef f fs. unfold query. rewrite Hq.
  set (change := fun v => Visit.set_updated_at now (assign_all (fields_of updates) v)).
  pose proof (update_where_id_rows id change (tables db)
                (set_updated_at_id now (fields_of updates))) as ([Hnil Hnil'] & _).
  split.
  + destruct (update_where_id id change (tables db)) as [rows t'].
    cbn [fst snd] in *. destruct rows; [auto | discriminate].
  + intros Hno. rewrite (update_where_id_no_hit id change _ Hno). cbn.
    now rewrite db_eta.
Qed.

Lemma assign_all_columns (updates : gmap string JsValue) (v : Visit.t) :
let v' := assign_all (fields_of updates) v in
Visit.approval_status v' =
  (if defined (field updates "approval") then prepare (field updates "approval")
   else Visit.approval_status v) /\
Visit.approved_at v' =
  (if defined (field updates "approvedAt") then prepare (field updates "approvedAt")
   else Visit.approved_at v) /\
Visit.visit_status v' =
  (if defined (field updates "status") then prepare (field updates "status")
   else Visit.visit_status v) /\
Visit.rejection_reason v' =
  (if defined (field updates "rejection_reason")
   then prepare (field updates "rejection_reason")
   else Visit.rejection_reason v).
Proof.
cbv zeta. unfold build_fields, push_if_defined.
destruct (defined (field updates "approval")),
         (defined (field updates "approvedAt")),
         (defined (field updates "status")),
         (defined (field updates "rejection_reason")); cbn; auto.
Qed.

(** Each key of the body writes its own column: [approval] the approval
  status, [approvedAt] the approval time, [status] the visit status,
  [rejection_reason] the rejection reason.  The column takes what the
  driver sends for the value of the key: a string as it is, [null] as
  [NULL], a number as the text the driver gives it; a column whose key is
  absent keeps its value. *)
Theorem updateVisit_sets_named_columns
  (id : string) (updates : gmap string JsValue) (now : Z) (db : DB)
  (row : Visit.t) (db' : DB)
  (Hok : update id updates now db = (VisitOk row, db')) :
exists v,
  In v (visits (tables db)) /\ Visit.id v = id /\
  Visit.approval_status row =
    (if defined (field updates "approval") then prepare (field updates "approval")
     else Visit.approval_status v) /\
  Visit.approved_at row =
    (if defined (field updates "approvedAt") then prepare (field updates "approvedAt")
     else Visit.approved_at v) /\
  Visit.visit_status row =
    (if defined (field updates "status") then prepare (field updates "status")
     else Visit.visit_status v) /\
  Visit.rejection_reason row =
    (if defined (field updates "rejection_reason")
     then prepare (field updates "rejection_reason")
     else Visit.rejection_reason v) /\
  (field updates "approval" = JNull -> Visit.approval_status row = None) /\
  (field updates "approvedAt" = JNull -> Visit.approved_at row = None) /\
  (field updates "status" = JNull -> Visit.visit_status row = None) /\
  (field updates "rejection_reason" = JNull -> Visit.rejection_reason row = None) /\
  (forall s, field updates "approval" = JStr s ->
             Visit.approval_status row = Some s) /\
  (forall s, field updates "approvedAt" = JStr s -> Visit.approved_at row = Some s) /\
  (forall s, field updates "status" = JStr s -> Visit.visit_status row = Some s) /\
  (forall s, field updates "rejection_reason" = JStr s ->
             Visit.rejection_reason row = Some s) /\
  (forall n, field updates "rejection_reason" = JNum n ->
             Visit.rejection_reason row = Some (prepareNumber n)).
Proof.
apply update_ok in Hok as (_ & v & Hv & Hid & ->).
exists v. split; [exact Hv|]. split; [exact Hid|].
pose proof (assign_all_columns updates v) as (H1 & H2 & H3 & H4).
cbn. repeat (split; [assumption|]).
repeat split; intros; rewrite ?H1, ?H2, ?H3, ?H4;
  match goal with E : field updates _ = _ |- _ => rewrite E end; reflexivity.
Qed.

Lemma check_ok (q : Sql) (id : string) (change : Visit.t -> Visit.t) (db : DB) :
(forall v, Visit.id (change v) = Visit.id v) ->
let r := match query rejects q [Some id] (update_where_id id change) db with
         | (inr [], db') => (VisitNotFound, db')
         | (inr (row :: _), db') => (VisitOk row, db')
         | (inl error, db') => (VisitFailed error, db')
         end in
(rejects q [Some id] (tables db) = true /\ r = (VisitFailed (DbError (sql_name q)), db)) \/
(rejects q [Some id] (tables db) = false /\
 (forall v, In v (visits (tables db)) -> Visit.id v <> id) /\
 r = (VisitNotFound, db)) \/
(rejects q [Some id] (tables db) = false /\
 exists v, In v (visits (tables db)) /\ Visit.id v = id /\
   r = (VisitOk (change v),
        mkDB (snd (update_where_id id change (tables db))) (saved db))).
Proof.
intros Hid. cbv zeta. unfold query.
destruct (rejects q [Some id] (tables db)); [left; auto|]. right.
pose proof (update_where_id_rows id change (tables db) Hid) as ([Hnil _] & Hrows & _).
destruct (update_where_id id change (tables db)) as [rows t'] eqn:Eu.
cbn [fst snd] in *. destruct rows as [|row rows].
- left. split; [reflexivity|]. split; [exact (Hnil eq_refl)|].
  rewrite (update_where_id_no_hit id change _ (Hnil eq_refl)) in Eu.
  injection Eu as <-. now rewrite db_eta.
- right. split; [reflexivity|].
  destruct (Hrows row (or_introl eq_refl)) as (_ & v & Hv & Hv' & ->). eauto.
Qed.

Lemma checkIn_cases (id : string) (now : Z) (db : DB) :
(rejects SqlCheckin [Some id] (tables db) = true /\
 checkIn rejects id now db = (VisitFailed (DbError (sql_name SqlCheckin)), db)) \/
(rejects SqlCheckin [Some id] (tables db) = false /\
 (forall v, In v (visits (tables db)) -> Visit.id v <> id) /\
 checkIn rejects id now db = (VisitNotFound, db)) \/
(rejects SqlCheckin [Some id] (tables db) = false /\
 exists v, In v (visits (tables db)) /\ Visit.id v = id /\
   checkIn rejects id now db =
     (VisitOk (check_in_row now v),
      mkDB (snd (update_where_id id (check_in_row now) (tables db))) (saved db))).
Proof. apply (check_ok SqlCheckin id (check_in_row now) db). reflexivity. Qed.

Lemma checkOut_cases (id : string) (now : Z) (db : DB) :
(rejects SqlCheckout [Some id] (tables db) = true /\
 checkOut rejects id now db = (VisitFailed (DbError (sql_name SqlCheckout)), db)) \/
(rejects SqlCheckout [Some id] (tables db) = false /\
 (forall v, In v (visits (tables db)) -> Visit.id v <> id) /\
 checkOut rejects id now db = (VisitNotFound, db)) \/
(rejects SqlCheckout [Some id] (tables db) = false /\
 exists v, In v (visits (tables db)) /\ Visit.id v = id /\
   checkOut rejects id now db =
     (VisitOk (check_out_row now v),
      mkDB (snd (update_where_id id (check_out_row now) (tables db))) (saved db))).
Proof. apply (check_ok SqlCheckout id (check_out_row now) db). reflexivity. Qed.

(** A check-in or a check-out of an id no visit has answers 404 and leaves
  the store as it was. *)
Theorem check_unknown_visit (id : string) (now : Z) (db : DB)
  (Hno : forall v, In v (visits (tables db)) -> Visit.id v <> id) :
(rejects SqlCheckin [Some id] (tables db) = false ->
 checkIn rejects id now db = (VisitNotFound, db)) /\
(rejects SqlCheckout [Some id] (tables db) = false ->
 checkOut rejects id now db = (VisitNotFound, db)).
Proof.
split; intros Hq.
- destruct (checkIn_cases id now db) as [[E _]|[(_ & _ & E)|(_ & v & Hv & Hid & _)]];
    [congruence | exact E | destruct (Hno v Hv Hid)].
- destruct (checkOut_cases id now db) as [[E _]|[(_ & _ & E)|(_ & v & Hv & Hid & _)]];
    [congruence | exact E | destruct (Hno v Hv Hid)].
Qed.

(** A check-out the store accepts, on a visit that exists, sets
  [visit_status = 'checked_out'] and the check-out time on every row with the
  id, whatever the row's status was and whether or not it was ever checked
  in: its check-in time is kept as it is, [NULL] included. *)
Theorem checkOut_unconditional (id : string) (now : Z) (db : DB)
  (Hq : rejects SqlCheckout [Some id] (tables db) = false)
  (Hex : exists v, In v (visits (tables db)) /\ Visit.id v = id) :
exists v row db',
  In v (visits (tables db)) /\ Visit.id v = id /\
  checkOut rejects id now db = (VisitOk row, db') /\
  In row (visits (tables db')) /\
  Visit.visit_status row = Some "checked_out" /\
  Visit.actual_checkout_time row = Some now /\
  Visit.actual_checkin_time row = Visit.actual_checkin_time v /\
  (forall v', In v' (visits (tables db')) -> Visit.id v' = id ->
     Visit.visit_status v' = Some "checked_out" /\
     Visit.actual_checkout_time v' = Some now).
Proof.
destruct Hex as (v0 & Hv0 & Hid0).
destruct (checkOut_cases id now db) as [[E _]|[(_ & Hno & _)|(_ & v & Hv & Hid & E)]];
  [congruence | destruct (Hno v0 Hv0 Hid0) |].
exists v, (check_out_row now v). eexists. split; [exact Hv|]. split; [exact Hid|].
split; [exact E|]. cbn [tables]. rewrite update_where_id_map.
split; [|split; [reflexivity|split; [reflexivity|split; [reflexivity|]]]].
- apply in_map_iff. exists v. split; [|exact Hv].
  apply String.eqb_eq in Hid. now rewrite Hid.
- intros v' Hv' Hid'. apply in_map_iff in Hv' as (w & <- & Hw).
  destruct (String.eqb_spec (Visit.id w) id); [split; reflexivity | contradiction].
Qed.

Lemma Forall2_map_self {B : Type} (P : B -> B -> Prop) (f : B -> B) (l : list B) :
(forall x, P x (f x)) -> Forall2 P l (map f l).
Proof. intros H. induction l; cbn; constructor; auto. Qed.

(** A check-in changes at most the visit status and the check-in time of the
  rows with the id, and a check-out at most the status and the check-out
  time: every other column, [updated_at] included, every other row and
  every other table stay as they were. *)
Theorem check_frame (id : string) (now : Z) (db : DB) :
let din := snd (checkIn rejects id now db) in
let dout := snd (checkOut rejects id now db) in
(visitors (tables din) = visitors (tables db) /\
 executives (tables din) = executives (tables db) /\
 users (tables din) = users (tables db) /\ saved din = saved db /\
 Forall2 (fun v v' => status_and Visit.set_actual_checkin_time
                        Visit.actual_checkin_time v v' /\
                      (Visit.id v <> id -> v' = v))
   (visits (tables db)) (visits (tables din))) /\
(visitors (tables dout) = visitors (tables db) /\
 executives (tables dout) = executives (tables db) /\
 users (tables dout) = users (tables db) /\ saved dout = saved db /\
 Forall2 (fun v v' => status_and Visit.set_actual_checkout_time
                        Visit.actual_checkout_time v v' /\
                      (Visit.id v <> id -> v' = v))
   (visits (tables db)) (visits (tables dout))).
Proof.
cbv zeta.
assert (Hself : forall (X : Type) (set : X -> Visit.t -> Visit.t) get,
          (forall v, set (get v) (Visit.set_visit_status (Visit.visit_status v) v) = v) ->
          Forall2 (fun v v' => status_and set get v v' /\ (Visit.id v <> id -> v' = v))
            (visits (tables db)) (visits (tables db))).
{ intros X set get H. apply Forall2_diag. intros v. unfold status_and. now rewrite H. }
split.
- destruct (checkIn_cases id now db) as [[_ ->]|[(_ & _ & ->)|(_ & v & _ & _ & ->)]];
    cbn [snd tables saved];
    try (repeat split; try reflexivity; apply Hself; now intros []).
  rewrite update_where_id_map. repeat split; try reflexivity.
  apply Forall2_map_self. intros w.
  destruct (String.eqb_spec (Visit.id w) id); split; try contradiction; auto;
    unfold status_and; now destruct w.
- destruct (checkOut_cases id now db) as [[_ ->]|[(_ & _ & ->)|(_ & v & _ & _ & ->)]];
    cbn [snd tables saved];
    try (repeat split; try reflexivity; apply Hself; now intros []).
  rewrite update_where_id_map. repeat split; try reflexivity.
  apply Forall2_map_self. intros w.
  destruct (String.eqb_spec (Visit.id w) id); split; try contradiction; auto;
    unfold status_and; now destruct w.
Qed.

(** A check-in followed by a check-out of the same visit: both are accepted,
  and every row with the id ends checked out, with the time of the check-in
  and the time of the check-out. *)
Theorem checkIn_then_checkOut (id : string) (t_in t_out : Z) (db : DB)
  (Hin : rejects SqlCheckin [Some id] (tables db) = false)
  (Hout : forall t, rejects SqlCheckout [Some id] t = false)
  (Hex : exists v, In v (visits (tables db)) /\ Visit.id v = id) :
exists r1 db1 r2 db2,
  checkIn rejects id t_in db = (VisitOk r1, db1) /\
  checkOut rejects id t_out db1 = (VisitOk r2, db2) /\
  length (visits (tables db2)) = length (visits (tables db)) /\
  (forall v', In v' (visits (tables db2)) -> Visit.id v' = id ->
     Visit.visit_status v' = Some "checked_out" /\
     Visit.actual_checkin_time v' = Some t_in /\
     Visit.actual_checkout_time v' = Some t_out).
Proof.
destruct Hex as (v0 & Hv0 & Hid0).
destruct (checkIn_cases id t_in db)
  as [[E _]|[(_ & Hno & _)|(_ & v & Hv & Hid & E1)]];
  [congruence | destruct (Hno v0 Hv0 Hid0) |].
set (db1 := mkDB (snd (update_where_id id (check_in_row t_in) (tables db))) (saved db))
  in *.
assert (Hv1 : In (check_in_row t_in v) (visits (tables db1))).
{ cbn [db1 tables]. rewrite update_where_id_map. apply in_map_iff.
  exists v. split; [|exact Hv]. apply String.eqb_eq in Hid. now rewrite Hid. }
destruct (checkOut_cases id t_out db1)
  as [[E _]|[(_ & Hno & _)|(_ & w & Hw & Hidw & E2)]];
  [rewrite Hout in E; discriminate | destruct (Hno _ Hv1 Hid) |].
do 4 eexists. split; [exact E1|]. split; [exact E2|].
cbn [tables db1]. rewrite !update_where_id_map, !length_map.
split; [reflexivity|].
intros v' Hv' Hid'. rewrite map_map in Hv'.
apply in_map_iff in Hv' as (x & <- & Hx).
destruct (String.eqb (Visit.id x) id) eqn:Ex.
- cbn [check_in_row Visit.id Visit.set_actual_checkin_time Visit.set_visit_status].
  rewrite Ex. repeat split; reflexivity.
- rewrite Ex in Hid' |- *. apply String.eqb_neq in Ex. contradiction.
Qed.

Lemma select_by_code_In (t : Tables) (code : SqlVal) (g : GateVisit) :
In g (select_by_code t code) ->
exists v, In v (visits t) /\ sql_eq (Some (Visit.visit_code v)) code = true /\
          payload_of v g.
Proof.
unfold select_by_code. intros H.
apply in_map_iff in H as (r & <- & H).
apply in_flat_map in H as (v & Hv & H). apply filter_In in Hv as [Hv Hc].
exists v. split; [exact Hv|]. split; [exact Hc|].
apply (gate_row_payload t). now apply in_map.
Qed.

Lemma judge_cases (rows : list GateVisit) (now : Z) :
(rows = [] /\ judge rows now = mkValidate 404 (Some false) (Some "Visit not found") None) \/
(exists g rest, rows = g :: rest /\
   ((default 0 (gv_date g) < now / ms_per_day /\
     judge rows now
     = mkValidate 200 (Some false) (Some "This pass has expired") (Some g)) \/
    (now / ms_per_day <= default 0 (gv_date g) /\ gv_status g = Some "cancelled" /\
     judge rows now
     = mkValidate 200 (Some false) (Some "This pass has been cancelled") (Some g)) \/
    (now / ms_per_day <= default 0 (gv_date g) /\ gv_status g <> Some "cancelled" /\
     judge rows now = mkValidate 200 (Some true) None (Some g)))).
Proof.
destruct rows as [|g rest]; [left; auto|]. right. exists g, rest.
split; [reflexivity|]. cbn [judge]. rewrite expired_by_day.
destruct (Z.ltb_spec (default 0 (gv_date g)) (now / ms_per_day)); [left; auto|].
right. destruct (gv_status g) as [s|]; cbn.
- destruct (String.eqb_spec s "cancelled") as [->|Hs]; [left; auto|].
  right. repeat split; [assumption | congruence].
- right. repeat split; [assumption | congruence].
Qed.

(** An update that sets a visit's status to 'cancelled' closes the gate on
  the store it leaves: there, a scan of a code that only this visit carries
  is not answered [valid = true], whatever the time of the scan.  (A later
  check-in or update changes the status, and the answer with it.) *)
Theorem cancelled_visit_fails_gate
  (id : string) (updates body : gmap string JsValue) (now later : Z) (db : DB)
  (row : Visit.t) (db' : DB)
  (Hok : update id updates now db = (VisitOk row, db'))
  (Hcancel : field updates "status" = JStr "cancelled")
  (Hcode : forall v, In v (visits (tables db)) ->
             sql_eq (Some (Visit.visit_code v)) (prepare (field body "code")) = true ->
             Visit.id v = id) :
Visit.visit_status row = Some "cancelled" /\
vr_valid (fst (validateCode rejects prepareNumber prepareCompound body later db')) <> Some true.
Proof.
apply update_ok in Hok as (-> & v & Hv & Hid & ->).
pose proof (assign_all_columns updates) as Hcols.
split; [cbn; destruct (Hcols v) as (_ & _ & -> & _); now rewrite Hcancel|].
unfold validateCode, query. cbn [tables saved].
destruct (rejects _ _ _); [discriminate|]. cbn [fst].
destruct (judge_cases (select_by_code
            (snd (update_where_id id
                    (fun v => Visit.set_updated_at now (assign_all (fields_of updates) v))
                    (tables db)))
            (prepare (field body "code"))) later)
  as [[_ ->]|(g & rest & Hrows & [[_ ->]|[(_ & _ & ->)|(_ & Hst & _)]])];
  try discriminate.
exfalso. apply Hst.
assert (Hg : In g (g :: rest)) by now left.
rewrite <- Hrows in Hg. apply select_by_code_In in Hg as (v' & Hv' & Hc & Hp).
destruct Hp as (_ & _ & _ & _ & _ & _ & -> & _).
rewrite update_where_id_map in Hv'. apply in_map_iff in Hv' as (w & <- & Hw).
assert (Hcw : Visit.visit_code
                (if String.eqb (Visit.id w) id
                 then Visit.set_updated_at now (assign_all (fields_of updates) w)
                 else w) = Visit.visit_code w).
{ destruct (String.eqb (Visit.id w) id); [|reflexivity].
  cbn. apply (assign_all_frame (fields_of updates) w). }
rewrite Hcw in Hc. pose proof (Hcode w Hw Hc) as Hidw.
apply String.eqb_eq in Hidw. rewrite Hidw. cbn.
destruct (Hcols w) as (_ & _ & -> & _). now rewrite Hcancel.
Qed.

(** After a check-in the gate judges the visit by its date alone: for a code
  that only this visit carries, the answer is [valid = true] exactly when
  the scheduled day has not passed, also when the visit had been cancelled
  before the check-in. *)
Theorem checked_in_visit_judged_by_date
  (id : string) (body : gmap string JsValue) (now later : Z) (db : DB)
  (row : Visit.t) (db' : DB)
  (Hok : checkIn rejects id now db = (VisitOk row, db'))
  (Hq : rejects SqlSelectVisitByCode [prepare (field body "code")] (tables db') = false)
  (Hcode : forall v, In v (visits (tables db)) ->
             sql_eq (Some (Visit.visit_code v)) (prepare (field body "code")) = true ->
             Visit.id v = id) :
let r := fst (validateCode rejects prepareNumber prepareCompound body later db') in
vr_error r <> Some "This pass has been cancelled" /\
forall g rest,
  select_by_code (tables db') (prepare (field body "code")) = g :: rest ->
  gv_status g = Some "checked_in" /\
  (vr_valid r = Some true <-> later / ms_per_day <= default 0 (gv_date g)).
Proof.
cbv zeta.
destruct (checkIn_cases id now db)
  as [[_ E]|[(_ & _ & E)|(_ & v & Hv & Hid & E)]];
  rewrite E in Hok; try discriminate.
assert (Edb : db' = mkDB (snd (update_where_id id (check_in_row now) (tables db)))
                      (saved db)) by congruence.
subst db'. clear E Hok.
set (t' := snd (update_where_id id (check_in_row now) (tables db))) in *.
assert (Hmap : visits t' = map (fun w => if String.eqb (Visit.id w) id
                                         then check_in_row now w else w)
                             (visits (tables db))) by reflexivity.
clearbody t'.
unfold validateCode, query. cbn [tables saved] in *. rewrite Hq. cbn [fst].
assert (Hst : forall g, In g (select_by_code t' (prepare (field body "code"))) ->
                gv_status g = Some "checked_in").
{ intros g Hg. apply select_by_code_In in Hg as (v' & Hv' & Hc & Hp).
  destruct Hp as (_ & _ & _ & _ & _ & _ & -> & _).
  rewrite Hmap in Hv'. apply in_map_iff in Hv' as (w & <- & Hw).
  assert (Hcw : Visit.visit_code
                  (if String.eqb (Visit.id w) id then check_in_row now w else w)
                = Visit.visit_code w)
    by (destruct (String.eqb (Visit.id w) id); reflexivity).
  rewrite Hcw in Hc. pose proof (Hcode w Hw Hc) as Hidw.
  apply String.eqb_eq in Hidw. now rewrite Hidw. }
destruct (judge_cases (select_by_code t' (prepare (field body "code"))) later)
  as [[Hnil ->]|(g & rest & Hrows & Hcase)].
- split; [discriminate|]. intros g rest E. rewrite E in Hnil. discriminate.
- assert (Hg : gv_status g = Some "checked_in") by (apply Hst; rewrite Hrows; now left).
  destruct Hcase as [[Hlt ->]|[(_ & Hc & _)|(Hge & _ & ->)]];
    [|rewrite Hg in Hc; discriminate|].
  + split; [discriminate|]. intros g' rest' E. rewrite Hrows in E.
    injection E as <- <-. split; [exact Hg|]. cbn. split; [discriminate | lia].
  + split; [discriminate|]. intros g' rest' E. rewrite Hrows in E.
    injection E as <- <-. split; [exact Hg|]. cbn. split; auto.
Qed.

End Transitions.

(** ** More on visit creation *)

Section CreateMore.

Variable rejects : Sql -> list SqlVal -> Tables -> bool.
Variable gen_id : Tables -> string.
Variable assign_code : Tables -> string.
Variable prepareNumber : Z -> string.
Variable prepareCompound : JsValue -> string.
Variable to_date : SqlVal -> option Z.

Abbreviation prepare := (prepareValue prepareNumber prepareCompound).
Abbreviation normalize := (normalize_executive rejects).
Abbreviation resolve := (resolve_visitor rejects gen_id prepareNumber prepareCompound).
Abbreviation create_try :=
(createVisit_try rejects gen_id assign_code prepareNumber prepareCompound to_date).
Abbreviation create :=
(createVisit rejects gen_id assign_code prepareNumber prepareCompound to_date).

(** The row lines 175-178 insert for a visitor. *)
Lemma resolve_outcome (visitor : JsValue) (now : Z) (db : DB) (id : string) (db' : DB) :
resolve visitor now db = (inr id, db') ->
let name := prepare (prop_of visitor "name") in
let email := prepare (prop_of visitor "email") in
let phone := prepare (prop_of visitor "phone") in
let company := prepare (prop_of visitor "company") in
match with_phone phone (tables db) with
| [] =>
    id = gen_id (tables db) /\
    db' = mkDB (set_visitors
                  (visitors (tables db) ++
                   [Visitor.mk (gen_id (tables db)) name email phone company now])
                  (tables db)) (saved db)
| hit :: _ =>
    id = Visitor.id hit /\
    db' = mkDB (set_visitors
                  (map (touch_visitor (Visitor.id hit) name email company now)
                     (visitors (tables db)))
                  (tables db)) (saved db)
end.
Proof.
cbv zeta. unfold with_phone, prop_of. destruct db as [t sv].
unfold resolve_visitor, bind, lift, ret, throw, query. intros H.
cbn [tables saved] in *.
destruct (get_prop visitor "phone") as [e|phone]; [discriminate|].
destruct (List.filter _ (visitors t)) as [|hit hits] eqn:Hf;
  repeat (case_match; simplify_eq/=); auto;
  match goal with
  | E : map Visitor.id _ = _ |- _ => rewrite Hf in E; simplify_eq/=; auto
  end.
Qed.

(** The steps behind a 201 answer. *)
Lemma createVisit_steps (body : gmap string JsValue) (now : Z) (db : DB)
  (cv : CompleteVisit) (db' : DB) :
create body now db = (Created cv, db') ->
exists exec visitorId db3 row rest,
  normalize (field body "executive_id") (begun db) = (inr exec, begun db) /\
  resolve (field body "visitor") now (begun db) = (inr visitorId, db3) /\
  row = new_visit gen_id assign_code to_date (tables db3) visitorId (prepare exec)
          (prepare (field body "date")) (prepare (field body "time_from"))
          (prepare (field body "time_to")) (prepare (field body "purpose"))
          (prepare (if defined (field body "visit_type")
                    then field body "visit_type" else JStr "scheduled"))
          (Some "pending") now /\
  db' = mkDB (set_visits (visits (tables db3) ++ [row]) (tables db3)) None /\
  select_complete (tables db') (Visit.id row) = cv :: rest.
Proof.
unfold createVisit. intros Hok.
destruct (create_try body now db) as [[e|cv'] db''] eqn:E; [discriminate|].
assert (cv' = cv /\ db'' = db') as [-> ->] by (split; congruence). clear Hok.
unfold createVisit_try in E. unfold bind at 1, begin in E.
destruct (rejects SqlBegin [] (tables db)); [discriminate|].
fold (begun db) in E. unfold bind at 1 in E.
pose proof (normalize_frame rejects (field body "executive_id") (begun db)) as Hn.
destruct (normalize (field body "executive_id") (begun db)) as [[e|exec] db2] eqn:En;
  [discriminate|].
cbn [snd] in Hn. subst db2.
unfold bind at 1 in E.
destruct (resolve (field body "visitor") now (begun db)) as [[e|visitorId] db3] eqn:Er;
  [discriminate|].
unfold bind at 1, insert_visit, query in E.
destruct (rejects SqlInsertVisit _ _); [discriminate|].
unfold bind at 1, commit in E. cbn [tables saved] in E.
destruct (rejects SqlCommit [] _); [discriminate|].
unfold bind, query, throw, ret in E. cbn [tables saved] in E.
destruct (rejects SqlSelectCompleteVisit _ _); [discriminate|].
match type of E with
| context [select_complete ?t ?i] => destruct (select_complete t i) as [|c rest] eqn:Es
end; [discriminate|].
injection E as -> <-.
do 5 eexists. repeat split; try reflexivity. exact Es.
Qed.

(** A visitor whose phone no stored visitor has gets a new row with the
  submitted name, email, phone and company, and the new visit points to it.
  A missing phone matches no stored visitor, so it always gives a new row. *)
Theorem createVisit_new_phone (body : gmap string JsValue) (now : Z) (db : DB)
  (cv : CompleteVisit) (db' : DB)
  (Hok : create body now db = (Created cv, db'))
  (Hnew : with_phone (prepare (prop_of (field body "visitor") "phone")) (tables db) = []) :
let visitor := field body "visitor" in
let added := Visitor.mk (gen_id (tables db)) (prepare (prop_of visitor "name"))
               (prepare (prop_of visitor "email")) (prepare (prop_of visitor "phone"))
               (prepare (prop_of visitor "company")) now in
visitors (tables db') = visitors (tables db) ++ [added] /\
(exists row, visits (tables db') = visits (tables db) ++ [row] /\
             Visit.visitor_id row = Visitor.id added) /\
(forall t, with_phone None t = []).
Proof.
cbv zeta.
apply createVisit_steps in Hok
  as (exec & vid & db3 & row & rest & _ & Hr & Hrow & -> & _).
apply resolve_outcome in Hr. cbv zeta in Hr. cbn [tables begun] in Hr.
rewrite Hnew in Hr. destruct Hr as [-> ->]. cbn.
split; [reflexivity|]. split.
- eexists. split; [reflexivity|]. now subst row.
- intros t. unfold with_phone. induction (visitors t) as [|r l IH]; cbn; auto.
  destruct (Visitor.phone r); cbn; exact IH.
Qed.

(** A visitor whose phone is already stored gets no new row: the first
  stored visitor with that phone (and any row sharing its id) has its name,
  email and company overwritten and its update time refreshed, its id and
  phone kept; every other visitor row is untouched, and the new visit points
  to that visitor. *)
Theorem createVisit_known_phone (body : gmap string JsValue) (now : Z) (db : DB)
  (cv : CompleteVisit) (db' : DB) (hit : Visitor.t) (others : list Visitor.t)
  (Hok : create body now db = (Created cv, db'))
  (Hknown : with_phone (prepare (prop_of (field body "visitor") "phone")) (tables db)
            = hit :: others) :
let visitor := field body "visitor" in
length (visitors (tables db')) = length (visitors (tables db)) /\
Forall2 (fun r r' =>
           Visitor.id r' = Visitor.id r /\ Visitor.phone r' = Visitor.phone r /\
           (Visitor.id r = Visitor.id hit ->
            Visitor.full_name r' = prepare (prop_of visitor "name") /\
            Visitor.email r' = prepare (prop_of visitor "email") /\
            Visitor.company r' = prepare (prop_of visitor "company") /\
            Visitor.updated_at r' = now) /\
           (Visitor.id r <> Visitor.id hit -> r' = r))
  (visitors (tables db)) (visitors (tables db')) /\
(exists row, visits (tables db') = visits (tables db) ++ [row] /\
             Visit.visitor_id row = Visitor.id hit).
Proof.
cbv zeta.
apply createVisit_steps in Hok
  as (exec & vid & db3 & row & rest & _ & Hr & Hrow & -> & _).
apply resolve_outcome in Hr. cbv zeta in Hr. cbn [tables begun] in Hr.
rewrite Hknown in Hr. destruct Hr as [-> ->]. cbn.
split; [now rewrite length_map|]. split.
- clear Hrow Hknown.
  induction (visitors (tables db)) as [|r l IH]; cbn; constructor; [|exact IH].
  unfold touch_visitor.
  destruct (String.eqb_spec (Visitor.id r) (Visitor.id hit)); cbn;
    repeat split; auto; contradiction.
- eexists. split; [reflexivity|]. now subst row.
Qed.

Lemma join_visit_match (t : Tables) (v v' : Visit.t) vis e u :
In (v', vis, e, u) (join_visit t v) ->
v' = v /\
In vis (visitors t) /\ String.eqb (Visit.visitor_id v) (Visitor.id vis) = true /\
In e (executives t) /\ sql_eq (Visit.executive_id v) (Some (Executive.id e)) = true /\
In u (users t) /\ sql_eq (Executive.user_id e) (Some (User.id u)) = true.
Proof.
unfold join_visit. intros H.
apply in_flat_map in H as (vis0 & Hvis & H). apply filter_In in Hvis as [Hvis Evis].
apply in_flat_map in H as (e0 & He & H). apply filter_In in He as [He Ee].
apply in_flat_map in H as (u0 & Hu & [[= <- <- <- <-]|[]]).
apply filter_In in Hu as [Hu Eu]. tauto.
Qed.

Lemma select_complete_joined (t : Tables) (id : string) (cv : CompleteVisit) :
In cv (select_complete t id) ->
exists v vis e u,
  In v (visits t) /\ Visit.id v = id /\ In (v, vis, e, u) (join_visit t v) /\
  cv = complete_row (v, vis, e, u).
Proof.
unfold select_complete. intros H.
apply in_map_iff in H as ([[[v' vis] e] u] & <- & H).
apply in_flat_map in H as (v & Hv & H).
apply filter_In in Hv as [Hv Hid]. apply String.eqb_eq in Hid.
pose proof (join_visit_match _ _ _ _ _ _ H) as (-> & _).
exists v, vis, e, u. auto.
Qed.

(** The visit a 201 answer returns is the inserted row, when no older visit
  has its id; and that row joins with its visitor, executive and user. *)
Lemma created_row_joins (body : gmap string JsValue) (now : Z) (db : DB)
  (cv : CompleteVisit) (db' : DB) :
create body now db = (Created cv, db') ->
(forall v, In v (visits (tables db)) -> Visit.id v <> Visit.id (cv_visit cv)) ->
visits (tables db') = visits (tables db) ++ [cv_visit cv] /\
Visit.visit_status (cv_visit cv) = Some "scheduled" /\
Visit.approval_status (cv_visit cv) = Some "pending" /\
exists vis e u, In (cv_visit cv, vis, e, u) (join_visit (tables db') (cv_visit cv)).
Proof.
intros Hok Hfresh.
apply createVisit_steps in Hok
  as (exec & vid & db3 & row & rest & _ & Hr & Hrow & -> & Hsel).
apply resolve_frame in Hr as (_ & _ & _ & Hv & _). cbn [tables begun] in Hv.
assert (Hin : In cv (cv :: rest)) by now left.
rewrite <- Hsel in Hin.
apply select_complete_joined in Hin as (v & vis & e & u & Hin & Hid & Hj & ->).
cbn [tables set_visits visits] in *. cbn [complete_row cv_visit] in *.
rewrite Hv in *.
apply in_app_or in Hin as [Hold|[<-|[]]].
- exfalso. apply (Hfresh v Hold). reflexivity.
- split; [reflexivity|]. split; [now subst row|]. split; [now subst row|]. eauto.
Qed.

(** An [executive_id] string that contains a hyphen is used as it is: the
  new visit carries exactly that id, and the executives table is not
  consulted to replace it.  When no older visit has the new visit's id, a
  201 answer means an executive with that id exists. *)
Theorem createVisit_keeps_hyphenated_id (body : gmap string JsValue) (now : Z) (db : DB)
  (cv : CompleteVisit) (db' : DB) (s : string)
  (Hok : create body now db = (Created cv, db'))
  (Hid : field body "executive_id" = JStr s)
  (Hs : string_includes s "-" = true) :
(exists row, visits (tables db') = visits (tables db) ++ [row] /\
             Visit.executive_id row = Some s) /\
executives (tables db') = executives (tables db) /\
((forall v, In v (visits (tables db)) -> Visit.id v <> Visit.id (cv_visit cv)) ->
 Visit.executive_id (cv_visit cv) = Some s /\
 exists e, In e (executives (tables db)) /\ Executive.id e = s).
Proof.
pose proof (createVisit_steps _ _ _ _ _ Hok)
  as (exec & vid & db3 & row & rest & Hn & Hr & Hrow & Hdb & Hsel).
assert (Hexec : exec = JStr s).
{ rewrite Hid in Hn. unfold normalize_executive, bind, lift, ret in Hn.
  cbn in Hn. rewrite Hs in Hn. cbn in Hn. congruence. }
subst exec.
apply resolve_frame in Hr as (_ & He & _ & Hv & _). cbn [tables begun] in He, Hv.
assert (Hrow_exec : Visit.executive_id row = Some s) by now subst row.
split; [|split].
- exists row. subst db'. cbn. now rewrite Hv.
- subst db'. cbn. exact He.
- intros Hfresh.
  destruct (created_row_joins _ _ _ _ _ Hok Hfresh) as (Hvis & _ & _ & vis & e & u & Hj).
  assert (Hcv : cv_visit cv = row).
  { subst db'. cbn in Hvis. rewrite Hv in Hvis.
    apply app_inv_head in Hvis. congruence. }
  rewrite Hcv in *. split; [exact Hrow_exec|].
  apply join_visit_match in Hj as (_ & _ & _ & Hine & Ee & _).
  rewrite Hrow_exec in Ee. cbn in Ee. apply String.eqb_eq in Ee.
  exists e. subst db'. cbn in Hine. rewrite He in Hine. auto.
Qed.

(** A visit that has just been created passes the gate as long as its day
  has not passed, although its approval is still pending: for fresh id and
  code, scanning the new code answers [valid = true] with the new visit. *)
Theorem createVisit_then_validate
  (body scanned : gmap string JsValue) (now later : Z) (db : DB)
  (cv : CompleteVisit) (db' : DB)
  (Hok : create body now db = (Created cv, db'))
  (Hfresh_id : forall v, In v (visits (tables db)) ->
                 Visit.id v <> Visit.id (cv_visit cv))
  (Hfresh_code : forall v, In v (visits (tables db)) ->
                   Visit.visit_code v <> Visit.visit_code (cv_visit cv))
  (Hscan : prepare (field scanned "code") = Some (Visit.visit_code (cv_visit cv)))
  (Hq : rejects SqlSelectVisitByCode [prepare (field scanned "code")] (tables db')
        = false)
  (Hday : later / ms_per_day <= scheduled_day (cv_visit cv)) :
Visit.approval_status (cv_visit cv) = Some "pending" /\
exists g,
  fst (validateCode rejects prepareNumber prepareCompound scanned later db')
  = mkValidate 200 (Some true) None (Some g) /\
  payload_of (cv_visit cv) g.
Proof.
destruct (created_row_joins _ _ _ _ _ Hok Hfresh_id)
  as (Hvis & Hst & Hap & vis & e & u & Hj).
split; [exact Hap|].
assert (Er : fst (validateCode rejects prepareNumber prepareCompound scanned later db')
             = judge (select_by_code (tables db')
                        (Some (Visit.visit_code (cv_visit cv)))) later)

  by (unfold validateCode, query; cbv zeta; rewrite Hq, Hscan; reflexivity).
rewrite Er. clear Er.
assert (Erows : select_by_code (tables db') (Some (Visit.visit_code (cv_visit cv)))
                = map gate_row (join_visit (tables db') (cv_visit cv))).
{ unfold select_by_code. rewrite Hvis, List.filter_app.
  assert (Hold : List.filter
                   (fun v => sql_eq (Some (Visit.visit_code v))
                               (Some (Visit.visit_code (cv_visit cv))))
                   (visits (tables db)) = []).
  { clear Hvis. induction (visits (tables db)) as [|v l IH]; cbn; [reflexivity|].
    destruct (String.eqb_spec (Visit.visit_code v) (Visit.visit_code (cv_visit cv)))
      as [E|E].
    - exfalso. apply (Hfresh_code v); [now left | exact E].
    - apply IH; intros w Hw; [apply Hfresh_id | apply Hfresh_code]; now right. }
  rewrite Hold. cbn [app List.filter sql_eq]. rewrite String.eqb_refl.
  cbn [flat_map]. now rewrite app_nil_r. }
rewrite Erows. clear Erows.
pose proof (gate_row_payload (tables db') (cv_visit cv)) as Hpay.
destruct (join_visit (tables db') (cv_visit cv)) as [|x xs]; [destruct Hj|].
specialize (Hpay (gate_row x) (or_introl eq_refl)).
exists (gate_row x). split; [|exact Hpay].
destruct (judge_cases (map gate_row (x :: xs)) later)
  as [[Hnil _]|(g & rest & Hrows & Hcase)]; [discriminate|].
injection Hrows as <- <-.
destruct Hpay as (_ & _ & Hdate & _ & _ & _ & Hstatus & _).
rewrite Hdate, Hstatus, Hst in Hcase. fold (scheduled_day (cv_visit cv)) in Hcase.
destruct Hcase as [[Hlt _]|[(_ & Hc & _)|(_ & _ & E)]];
  [lia | discriminate | exact E].
Qed.

End CreateMore.

(** ** Listing executives and visits *)

Section SortFacts.

Context {A : Type} (before : A -> A -> bool).

Lemma insert_by_perm (x : A) (l : list A) :
Permutation (insert_by before x l) (x :: l).
Proof.
induction l as [|y l IH]; cbn; [reflexivity|].
destruct (before x y); [reflexivity|].
rewrite IH. apply perm_swap.
Qed.

Lemma sort_by_perm (l : list A) : Permutation (sort_by before l) l.
Proof.
induction l as [|x l IH]; cbn; [reflexivity|].
rewrite insert_by_perm. now apply perm_skip.
Qed.

Lemma sort_by_In (l : list A) (x : A) : In x (sort_by before l) <-> In x l.
Proof.
split; apply Permutation_in; [|symmetry]; apply sort_by_perm.
Qed.

Hypothesis before_total : forall a b, before a b = true \/ before b a = true.

Lemma insert_by_sorted (x : A) (l : list A) :
Sorted.Sorted (fun a b => before a b = true) l ->
Sorted.Sorted (fun a b => before a b = true) (insert_by before x l).
Proof.
induction l as [|y l IH]; intros Hs; cbn.
- repeat constructor.
- destruct (before x y) eqn:E.
  + constructor; [exact Hs | constructor; exact E].
  + inversion Hs as [|? ? Hl Hhd]; subst.
    constructor; [apply IH, Hl|].
    assert (Hyx : before y x = true)
      by (destruct (before_total x y); [congruence | assumption]).
    destruct l as [|z l]; cbn; [constructor; exact Hyx|].
    destruct (before x z); constructor; [exact Hyx|].
    now inversion Hhd.
Qed.

Lemma sort_by_sorted (l : list A) :
Sorted.Sorted (fun a b => before a b = true) (sort_by before l).
Proof.
induction l as [|x l IH]; cbn; [constructor | now apply insert_by_sorted].
Qed.

End SortFacts.

Section Listing.

Variable rejects_read : ReadSql -> Tables -> bool.
Variable to_char : option Z -> SqlVal.
Variable time_before : SqlVal -> SqlVal -> bool.

Lemma name_before_total (a b : SqlVal) :
name_before a b = true \/ name_before b a = true.
Proof.
destruct a as [x|], b as [y|]; cbn; auto. apply String.leb_total.
Qed.

Lemma name_before_trans (a b c : SqlVal) :
name_before a b = true -> name_before b c = true -> name_before a c = true.
Proof.
destruct a as [x|], b as [y|], c as [z|]; cbn; try congruence.
apply string_leb_trans.
Qed.

Lemma active_executives_In (t : Tables) (e : Executive.t) (u : User.t) :
In (e, u) (active_executives t) <->
In e (executives t) /\ In u (users t) /\
sql_eq (Executive.user_id e) (Some (User.id u)) = true /\
Executive.is_active e = true /\ User.is_active u = true.
Proof.
unfold active_executives. rewrite filter_In, in_flat_map. cbn [fst snd].
rewrite andb_true_iff. split.
- intros [(e' & He & Hin) Hact].
  apply in_map_iff in Hin as (u' & [= -> ->] & Hu).
  apply filter_In in Hu. tauto.
- intros (He & Hu & Hj & Hact). split; [|tauto].
  exists e. split; [exact He|]. apply in_map, filter_In. auto.
Qed.

(** The list of executives holds exactly the active executives whose user
  exists and is active, each with its user's name, email and department, in
  the order of the names ([NULL] names last); the store is not changed. *)
Theorem listExecutives_active_sorted (db : DB)
  (Hq : rejects_read SqlSelectActiveExecutives (tables db) = false) :
exists rows,
  listExecutives rejects_read db = (ExecutivesOk rows, db) /\
  (forall r, In r rows <->
     exists e u,
       In e (executives (tables db)) /\ In u (users (tables db)) /\
       sql_eq (Executive.user_id e) (Some (User.id u)) = true /\
       Executive.is_active e = true /\ User.is_active u = true /\
       r = mkExecutiveRow (Executive.id e) (User.full_name u)
             (Executive.position e) (User.email u) (User.department u)) /\
  Sorted.StronglySorted (fun a b => name_before (er_name a) (er_name b) = true) rows /\
  length rows = length (active_executives (tables db)).
Proof.
unfold listExecutives. rewrite Hq. eexists. split; [reflexivity|].
unfold select_executives.
set (before := fun a b : Executive.t * User.t =>
                 name_before (User.full_name (snd a)) (User.full_name (snd b))).
split; [|split].
- intros r. rewrite in_map_iff. split.
  + intros ([e u] & <- & Hin). apply sort_by_In, active_executives_In in Hin.
    exists e, u. cbn. tauto.
  + intros (e & u & He & Hu & Hj & Ha & Hb & ->).
    exists (e, u). split; [reflexivity|].
    apply sort_by_In, active_executives_In. tauto.
- assert (Hs : Sorted.StronglySorted (fun a b => before a b = true)
                 (sort_by before (active_executives (tables db)))).
  { apply Sorted.Sorted_StronglySorted.
    - intros a b c. apply name_before_trans.
    - apply sort_by_sorted. intros a b. apply name_before_total. }
  induction Hs as [|a l Hl IH Hall]; cbn; constructor; [exact IH|].
  apply List.Forall_forall. intros r Hr. apply in_map_iff in Hr as (b & <- & Hb).
  rewrite List.Forall_forall in Hall. exact (Hall b Hb).
- rewrite length_map. apply Permutation_length, sort_by_perm.
Qed.

Lemma left_join_nonempty {B : Type} (l : list B) : exists y, In y (left_join l).
Proof. destruct l as [|b l]; cbn; eauto. Qed.

Lemma left_join_single {B : Type} (l : list B) :
(length l <= 1)%nat -> exists y, left_join l = [y].
Proof. destruct l as [|b [|c l]]; cbn; intros H; eauto. lia. Qed.

Lemma filter_unique {B K : Type} (key : B -> K) (p : B -> bool) (l : list B) :
(forall a b, p a = true -> p b = true -> key a = key b) ->
List.NoDup (map key l) -> (length (List.filter p l) <= 1)%nat.
Proof.
intros Hp. induction l as [|a l IH]; cbn; intros Hnd; [lia|].
apply NoDup_cons_iff in Hnd as [Hnot Hnd].
destruct (p a) eqn:Ea; [|now apply IH].
assert (Hnone : List.filter p l = []).
{ destruct (List.filter p l) as [|b l'] eqn:E; [reflexivity|]. exfalso.
  assert (Hb : In b (List.filter p l)) by (rewrite E; now left).
  apply filter_In in Hb as [Hb Eb]. apply Hnot.
  rewrite (Hp a b Ea Eb). now apply in_map. }
rewrite Hnone. cbn. lia.
Qed.

Lemma sql_eq_key (x : SqlVal) (a b : string) :
sql_eq x (Some a) = true -> sql_eq x (Some b) = true -> a = b.
Proof.
destruct x as [k|]; cbn; [|discriminate].
intros Ha Hb. apply String.eqb_eq in Ha, Hb. congruence.
Qed.

Lemma left_join_visit_In (t : Tables) (v : Visit.t) r :
In r (left_join_visit t v) -> fst (fst (fst r)) = v.
Proof.
unfold left_join_visit. intros H.
apply in_flat_map in H as (vis & _ & H).
apply in_flat_map in H as (e & _ & H).
apply in_map_iff in H as (u & <- & _). reflexivity.
Qed.

Lemma left_join_visit_nonempty (t : Tables) (v : Visit.t) :
exists r, In r (left_join_visit t v).
Proof.
unfold left_join_visit.
destruct (left_join_nonempty
            (List.filter (fun vis => String.eqb (Visit.visitor_id v) (Visitor.id vis))
               (visitors t))) as [vis Hvis].
destruct (left_join_nonempty
            (List.filter (fun e => sql_eq (Visit.executive_id v) (Some (Executive.id e)))
               (executives t))) as [e He].
destruct (left_join_nonempty
            (List.filter (fun u => sql_eq (e ≫= Executive.user_id) (Some (User.id u)))
               (users t))) as [u Hu].
exists (v, vis, e, u).
apply in_flat_map. exists vis. split; [exact Hvis|].
apply in_flat_map. exists e. split; [exact He|].
now apply in_map.
Qed.

Lemma left_join_visit_single (t : Tables) (v : Visit.t) :
unique_ids t -> exists r, left_join_visit t v = [r].
Proof.
intros (Hv & He & Hu). unfold left_join_visit.
destruct (left_join_single
            (List.filter (fun vis => String.eqb (Visit.visitor_id v) (Visitor.id vis))
               (visitors t))) as [vis ->].
{ apply (filter_unique Visitor.id); [|exact Hv].
  intros a b Ha Hb. apply String.eqb_eq in Ha, Hb. congruence. }
cbn [flat_map]. rewrite app_nil_r.
destruct (left_join_single
            (List.filter (fun e => sql_eq (Visit.executive_id v) (Some (Executive.id e)))
               (executives t))) as [e ->].
{ apply (filter_unique Executive.id); [|exact He].
  intros a b. apply sql_eq_key. }
cbn [flat_map]. rewrite app_nil_r.
destruct (left_join_single
            (List.filter (fun u => sql_eq (e ≫= Executive.user_id) (Some (User.id u)))
               (users t))) as [u ->].
{ apply (filter_unique User.id); [|exact Hu].
  intros a b. apply sql_eq_key. }
cbn. eauto.
Qed.

Lemma flat_map_length_ge {B C : Type} (f : B -> list C) (l : list B) :
(forall b, exists c, In c (f b)) -> (length l <= length (flat_map f l))%nat.
Proof.
intros Hf. induction l as [|b l IH]; cbn; [lia|].
rewrite length_app. destruct (Hf b) as [c Hc].
destruct (f b); [destruct Hc | cbn; lia].
Qed.

Lemma flat_map_length_single {B C : Type} (f : B -> list C) (l : list B) :
(forall b, exists c, f b = [c]) -> length (flat_map f l) = length l.
Proof.
intros Hf. induction l as [|b l IH]; cbn; [reflexivity|].
destruct (Hf b) as [c ->]. cbn. now rewrite IH.
Qed.

Lemma row_before_total :
(forall a b, time_before a b = true \/ time_before b a = true) ->
forall a b, row_before time_before a b = true \/ row_before time_before b a = true.
Proof.
intros Ht a b. unfold row_before.
destruct (Visit.scheduled_date (fst (fst (fst a)))) as [x|],
         (Visit.scheduled_date (fst (fst (fst b)))) as [y|]; cbn; auto.
rewrite (Z.compare_antisym y x).
destruct (Z.compare y x); cbn; auto.
Qed.

(** The list of visits shows every stored visit, whether or not its
  visitor, executive or user row exists, and nothing else: each row carries
  the columns of a stored visit.  There are at least as many rows as
  visits, and exactly as many when ids are unique in the joined tables.
  The rows come in the order of the query: later dates first ([NULL] dates
  before all), then by the store's descending order on the start time. *)
Theorem listVisits_complete_sorted (db : DB)
  (Hq : rejects_read SqlSelectAllVisits (tables db) = false)
  (Htime : forall a b, time_before a b = true \/ time_before b a = true) :
exists joined,
  listVisits rejects_read to_char time_before db
    = (VisitsOk (map (listed_row to_char) joined), db) /\
  (forall v, In v (visits (tables db)) ->
     exists r, In r (map (listed_row to_char) joined) /\ listing_of to_char v r) /\
  (forall r, In r (map (listed_row to_char) joined) ->
     exists v, In v (visits (tables db)) /\ listing_of to_char v r) /\
  (length (visits (tables db)) <= length joined)%nat /\
  (unique_ids (tables db) -> length joined = length (visits (tables db))) /\
  Sorted.Sorted (fun a b => row_before time_before a b = true) joined.
Proof.
unfold listVisits. rewrite Hq. unfold select_visits.
set (all := flat_map (left_join_visit (tables db)) (visits (tables db))).
exists (sort_by (row_before time_before) all).
assert (Hlist : forall r, In r all ->
          listing_of to_char (fst (fst (fst r))) (listed_row to_char r)).
{ intros [[[v vis] e] u] _. unfold listing_of. cbn. tauto. }
split; [reflexivity|]. split; [|split; [|split; [|split]]].
- intros v Hv. destruct (left_join_visit_nonempty (tables db) v) as [r Hr].
  assert (Hall : In r all) by (apply in_flat_map; eauto).
  exists (listed_row to_char r). split.
  + apply in_map, sort_by_In, Hall.
  + rewrite <- (left_join_visit_In _ _ _ Hr). now apply Hlist.
- intros r Hr. apply in_map_iff in Hr as (x & <- & Hx).
  apply sort_by_In in Hx. pose proof (Hlist x Hx) as Hl.
  apply in_flat_map in Hx as (v & Hv & Hx).
  rewrite (left_join_visit_In _ _ _ Hx) in Hl. eauto.
- rewrite (Permutation_length (sort_by_perm _ all)).
  apply flat_map_length_ge, left_join_visit_nonempty.
- intros Hu. rewrite (Permutation_length (sort_by_perm _ all)).
  apply flat_map_length_single. intros v. now apply left_join_visit_single.
- apply sort_by_sorted, row_before_total, Htime.
Qed.

End Listing.

(** ** The preview between inserts *)

Section Preview.

Variable rejects : Sql -> list SqlVal -> Tables -> bool.
Variable prepareNumber : Z -> string.
Variable prepareCompound : JsValue -> string.

Lemma codes_of_updated (id : string) (change : Visit.t -> Visit.t) (t : Tables) :
(forall v, Visit.visit_code (change v) = Visit.visit_code v) ->
map Visit.visit_code (visits (snd (update_where_id id change t)))
= map Visit.visit_code (visits t).
Proof.
intros H. rewrite update_where_id_map, map_map. apply map_ext. intros v.
destruct (String.eqb (Visit.id v) id); auto.
Qed.

(** The generator only reads, and reads nothing but the stored codes: it
  leaves the store as it was, and answers the same as long as the list of
  stored codes is the same.  Updates, check-ins and check-outs keep that
  list, so the previewed code only moves when a visit is inserted. *)
Theorem generateCode_preview_stable (year : Z) (db : DB) :
snd (generateCode rejects year db) = db /\
(forall db',
   map Visit.visit_code (visits (tables db')) = map Visit.visit_code (visits (tables db)) ->
   rejects SqlSelectLastCode [Some (code_prefix year +:+ "%")] (tables db')
   = rejects SqlSelectLastCode [Some (code_prefix year +:+ "%")] (tables db) ->
   fst (generateCode rejects year db') = fst (generateCode rejects year db)) /\
(forall id updates now,
   map Visit.visit_code
     (visits (tables (snd (updateVisit rejects prepareNumber prepareCompound id updates now db))))
   = map Visit.visit_code (visits (tables db))) /\
(forall id now,
   map Visit.visit_code (visits (tables (snd (checkIn rejects id now db))))
   = map Visit.visit_code (visits (tables db))) /\
(forall id now,
   map Visit.visit_code (visits (tables (snd (checkOut rejects id now db))))
   = map Visit.visit_code (visits (tables db))).
Proof.
split; [|split; [|split; [|split]]].
- unfold generateCode, query. destruct (rejects _ _ _); cbn; [reflexivity | apply db_eta].
- intros db' Hcodes Hrej. unfold generateCode, query. rewrite Hrej. clear Hrej.
  destruct (rejects _ _ _); cbn; [reflexivity|].
  unfold select_last_code. now rewrite Hcodes.
- intros id updates now.
  destruct (update_snd rejects prepareNumber prepareCompound id updates now db)
    as (t' & -> & [-> | ->]);
    cbn [tables]; [reflexivity|].
  apply codes_of_updated. intros v. cbn.
  apply (assign_all_frame (build_fields prepareNumber prepareCompound updates) v).
- intros id now.
  destruct (checkIn_cases rejects id now db)
    as [[_ ->]|[(_ & _ & ->)|(_ & v & _ & _ & ->)]]; cbn [snd tables]; try reflexivity.
  now apply codes_of_updated.
- intros id now.
  destruct (checkOut_cases rejects id now db)
    as [[_ ->]|[(_ & _ & ->)|(_ & v & _ & _ & ->)]]; cbn [snd tables]; try reflexivity.
  now apply codes_of_updated.
Qed.

End Preview.

(** ** The further theorems on the sample stores *)

Lemma generateCode_fresh_witness :
  exists s,
    generateCode accept_all 2025 sample_db = (CodeOk (code_prefix 2025 +:+ s), sample_db) /\
    Visit.visit_code (sample_visit "v-1" "GC-2025-000007" 20000 "scheduled" None)
    <> code_prefix 2025 +:+ s.
Proof.
  destruct (generateCode_fresh accept_all 2025 sample_db eq_refl) as (s & Hgen & _ & Hfresh).
  - intros c [<-|[]]. exists "000007". repeat split.
  - intros d [E|[]] _ _. apply (append_inv_prefix (code_prefix 2025) "000007") in E.
    subst d. reflexivity.
  - exists s. split; [exact Hgen|]. apply Hfresh. now left.
Defined.

Lemma createVisit_new_phone_witness :
  exists cv db' added,
    create0 (visit_body new_visitor (JNum 5) (JStr "scheduled")) 1000 sample_db
    = (Created cv, db') /\
    visitors (tables db') = visitors (tables sample_db) ++ [added] /\
    Visitor.phone added = Some "777".
Proof.
  destruct (create0 (visit_body new_visitor (JNum 5) (JStr "scheduled")) 1000 sample_db)
    as [r db'] eqn:E.
  assert (Hr : exists cv, r = Created cv)
    by (vm_compute in E; injection E as <- _; eauto).
  destruct Hr as [cv ->].
  destruct (createVisit_new_phone accept_all serial_id trigger_code number_text compound_text
              day_of_text _ _ _ _ _ E eq_refl) as (Hv & _).
  do 3 eexists. split; [reflexivity|]. split; [exact Hv | reflexivity].
Defined.

Lemma createVisit_known_phone_witness :
  exists cv db',
    create0 (visit_body (JObj {[ "name" := JStr "Ann B."; "phone" := JStr "555" ]})
               (JNum 5) (JStr "scheduled")) 1000 sample_db
    = (Created cv, db') /\
    length (visitors (tables db')) = 1%nat.
Proof.
  destruct (create0 (visit_body (JObj {[ "name" := JStr "Ann B."; "phone" := JStr "555" ]})
                       (JNum 5) (JStr "scheduled")) 1000 sample_db)
    as [r db'] eqn:E.
  assert (Hr : exists cv, r = Created cv)
    by (vm_compute in E; injection E as <- _; eauto).
  destruct Hr as [cv ->].
  destruct (createVisit_known_phone accept_all serial_id trigger_code number_text compound_text
              day_of_text _ _ _ _ _ sample_visitor [] E eq_refl) as (Hlen & _).
  do 2 eexists. split; [reflexivity | exact Hlen].
Defined.


Lemma createVisit_keeps_hyphenated_id_witness :
  exists cv db' row,
    create0 (visit_body new_visitor (JStr "e-1") (JStr "scheduled")) 1000 sample_db
    = (Created cv, db') /\
    visits (tables db') = visits (tables sample_db) ++ [row] /\
    Visit.executive_id row = Some "e-1".
Proof.
  destruct (create0 (visit_body new_visitor (JStr "e-1") (JStr "scheduled")) 1000 sample_db)
    as [r db'] eqn:E.
  assert (Hr : exists cv, r = Created cv)
    by (vm_compute in E; injection E as <- _; eauto).
  destruct Hr as [cv ->].
  destruct (createVisit_keeps_hyphenated_id accept_all serial_id trigger_code number_text
              compound_text day_of_text _ _ _ _ _ "e-1" E eq_refl eq_refl)
    as ((row & Hrow & Hex) & _).
  do 3 eexists. split; [reflexivity|]. split; [exact Hrow | exact Hex].
Defined.

Lemma createVisit_then_validate_witness :
  exists cv db' g,
    create0 (visit_body new_visitor (JNum 5) (JStr "walk-in")) 1000 sample_db
    = (Created cv, db') /\
    fst (validateCode accept_all number_text compound_text (scan "GC-2025-000008") noon_20000 db')
    = mkValidate 200 (Some true) None (Some g).
Proof.
  destruct (create0 (visit_body new_visitor (JNum 5) (JStr "walk-in")) 1000 sample_db)
    as [r db'] eqn:E.
  pose proof E as E'. vm_compute in E'. injection E' as <- <-.
  destruct (createVisit_then_validate accept_all serial_id trigger_code number_text compound_text
              day_of_text _ (scan "GC-2025-000008") _ noon_20000 _ _ _ E)
    as (_ & g & Hg & _).
  - intros v [<-|[]]. discriminate.
  - intros v [<-|[]]. discriminate.
  - reflexivity.
  - reflexivity.
  - vm_compute. discriminate.
  - do 3 eexists. split; [reflexivity | exact Hg].
Defined.

Lemma updateVisit_sets_named_columns_witness :
  exists row db',
    updateVisit accept_all number_text compound_text "v-1"
      {[ "approval" := JStr "rejected"; "rejection_reason" := JStr "no slot" ]}
      500 sample_db = (VisitOk row, db') /\
    Visit.approval_status row = Some "rejected" /\
    Visit.rejection_reason row = Some "no slot" /\
    Visit.visit_status row = Some "scheduled".
Proof.
  destruct (updateVisit accept_all number_text compound_text "v-1"
              {[ "approval" := JStr "rejected"; "rejection_reason" := JStr "no slot" ]}
              500 sample_db) as [r db'] eqn:E.
  assert (Hr : exists row, r = VisitOk row)
    by (vm_compute in E; injection E as <- _; eauto).
  destruct Hr as [row ->].
  destruct (updateVisit_sets_named_columns accept_all number_text compound_text _ _ _ _ _ _ E)
    as (v & [<-|[]] & _ & Hap & _ & Hst & Hrr & _).
  do 2 eexists. split; [reflexivity|]. split; [exact Hap|]. split; [exact Hrr | exact Hst].
Defined.

Lemma check_unknown_visit_witness :
  checkIn accept_all "v-404" 200 sample_db = (VisitNotFound, sample_db) /\
  checkOut accept_all "v-404" 200 sample_db = (VisitNotFound, sample_db).
Proof.
  destruct (check_unknown_visit accept_all "v-404" 200 sample_db) as [Hin Hout].
  - intros v [<-|[]]. discriminate.
  - split; [apply Hin | apply Hout]; reflexivity.
Defined.

Lemma checkOut_unconditional_witness :
  exists row db',
    checkOut accept_all "v-1" 300 sample_db = (VisitOk row, db') /\
    Visit.visit_status row = Some "checked_out" /\
    Visit.actual_checkin_time row = None.
Proof.
  destruct (checkOut_unconditional accept_all "v-1" 300 sample_db eq_refl)
    as (v & row & db' & [<-|[]] & _ & Hok & _ & Hst & _ & Hin & _).
  - eexists. split; [now left | reflexivity].
  - exists row, db'. split; [exact Hok|]. split; [exact Hst | exact Hin].
Defined.

Lemma checkIn_then_checkOut_witness :
  exists r1 db1 r2 db2,
    checkIn accept_all "v-1" 200 sample_db = (VisitOk r1, db1) /\
    checkOut accept_all "v-1" 300 db1 = (VisitOk r2, db2) /\
    length (visits (tables db2)) = 1%nat.
Proof.
  destruct (checkIn_then_checkOut accept_all "v-1" 200 300 sample_db eq_refl)
    as (r1 & db1 & r2 & db2 & H1 & H2 & Hlen & _).
  - reflexivity.
  - eexists. split; [now left | reflexivity].
  - exists r1, db1, r2, db2. auto.
Defined.

Lemma cancelled_visit_fails_gate_witness :
  exists row db',
    updateVisit accept_all number_text compound_text "v-1" {[ "status" := JStr "cancelled" ]}
      500 sample_db = (VisitOk row, db') /\
    vr_valid (fst (validateCode accept_all number_text compound_text (scan "GC-2025-000007")
                     noon_20000 db')) <> Some true.
Proof.
  destruct (updateVisit accept_all number_text compound_text "v-1"
              {[ "status" := JStr "cancelled" ]}
              500 sample_db) as [r db'] eqn:E.
  assert (Hr : exists row, r = VisitOk row)
    by (vm_compute in E; injection E as <- _; eauto).
  destruct Hr as [row ->].
  destruct (cancelled_visit_fails_gate accept_all number_text compound_text "v-1" _
              (scan "GC-2025-000007") 500 noon_20000 _ _ _ E eq_refl) as (_ & Hgate).
  - intros v [<-|[]] _. reflexivity.
  - do 2 eexists. split; [reflexivity | exact Hgate].
Defined.

Lemma checked_in_visit_judged_by_date_witness :
  exists row db',
    checkIn accept_all "v-1" 200 cancelled_db = (VisitOk row, db') /\
    vr_error (fst (validateCode accept_all number_text compound_text (scan "GC-2025-000007")
                     noon_20000 db')) <> Some "This pass has been cancelled".
Proof.
  destruct (checkIn accept_all "v-1" 200 cancelled_db) as [r db'] eqn:E.
  assert (Hr : exists row, r = VisitOk row)
    by (vm_compute in E; injection E as <- _; eauto).
  destruct Hr as [row ->].
  destruct (checked_in_visit_judged_by_date accept_all number_text compound_text "v-1"
              (scan "GC-2025-000007") 200 noon_20000 _ _ _ E eq_refl) as (Hnot & _).
  - intros v [<-|[]] _. reflexivity.
  - do 2 eexists. split; [reflexivity | exact Hnot].
Defined.

Lemma listExecutives_active_sorted_witness :
  exists rows,
    listExecutives no_read_rejected staff_db = (ExecutivesOk rows, staff_db) /\
    length rows = 2%nat.
Proof.
  destruct (listExecutives_active_sorted no_read_rejected staff_db eq_refl)
    as (rows & Hok & _ & _ & Hlen).
  exists rows. split; [exact Hok | exact Hlen].
Defined.

Lemma listVisits_complete_sorted_witness :
  exists joined,
    listVisits no_read_rejected plain_date text_before two_visits_db
    = (VisitsOk (map (listed_row plain_date) joined), two_visits_db) /\
    length joined = 2%nat.
Proof.
  destruct (listVisits_complete_sorted no_read_rejected plain_date text_before
              two_visits_db eq_refl) as (joined & Hok & _ & _ & _ & Hlen & _).
  - intros a b. unfold text_before. apply name_before_total.
  - exists joined. split; [exact Hok|]. apply Hlen.
    repeat split; repeat constructor; cbn; intuition discriminate.
Defined.
